(** * top_tracks_cli: a verification development

    A shallow embedding of [src/top_tracks_cli/main.go] and proofs about the
    playlist-name matcher, the playlist discovery/creation step, the fill and
    purge operations, the retry wrapper around the add-tracks call, the
    construction of the three per-time-range configurations and the join of
    the three fill tasks. *)

From Stdlib Require Import List String Ascii Bool Arith ZArith QArith Qround Lia Lqa.
Import ListNotations.
Close Scope Q_scope.
Open Scope string_scope.
Open Scope list_scope.

(** ** Regular expressions

    The program uses Go's [regexp] package on four patterns, all written with
    literal characters, a capturing group, alternation and the two anchors
    [^] and [$].  Without the [m] flag, Go's [^] holds only at the beginning
    of the text and [$] only at its end.  [MatchString] reports whether the
    text contains any match, so a pattern without anchors is searched for at
    every start position. *)

Module Regexp.

(** The operators of [regexp/syntax] that the four patterns need. *)
Inductive syntax : Type :=
| EmptyMatch
| Literal (c : ascii)
| BeginText
| EndText
| Capture (r : syntax)
| Concat (r1 r2 : syntax)
| Alternate (r1 r2 : syntax).

(** One level of the parser's stack: the alternatives closed so far by [|],
    and the concatenation being read. *)
Record frame : Type := { alts : list syntax; cur : syntax }.

Definition emptyFrame : frame := {| alts := []; cur := EmptyMatch |}.

Definition push (f : frame) (r : syntax) : frame :=
  {| alts := alts f; cur := Concat (cur f) r |}.

Definition collapse (f : frame) : syntax :=
  fold_right Alternate (cur f) (alts f).

(** Characters with a meaning of their own in the pattern language that this
    parser does not implement; a pattern that uses one is refused. *)
Definition unsupported (c : ascii) : bool :=
  existsb (Ascii.eqb c) (list_ascii_of_string "\.+*?[]{}").

Fixpoint parse (p : list ascii) (top : frame) (stack : list frame)
  : option syntax :=
  match p with
  | [] => match stack with
          | [] => Some (collapse top)
          | _ :: _ => None
          end
  | c :: p' =>
      if Ascii.eqb c "(" then parse p' emptyFrame (top :: stack)
      else if Ascii.eqb c "|" then
        parse p' {| alts := alts top ++ [cur top]; cur := EmptyMatch |} stack
      else if Ascii.eqb c ")" then
        match stack with
        | [] => None
        | outer :: stack' => parse p' (push outer (Capture (collapse top))) stack'
        end
      else if Ascii.eqb c "^" then parse p' (push top BeginText) stack
      else if Ascii.eqb c "$" then parse p' (push top EndText) stack
      else if unsupported c then None
      else parse p' (push top (Literal c)) stack
  end.

Definition Compile (pattern : string) : option syntax :=
  parse (list_ascii_of_string pattern) emptyFrame [].

(** [regexp.MustCompile] panics on a pattern that does not compile.  The
    patterns of this program all compile (see [patterns_compile]); the
    fallback is a pattern that matches nothing. *)
Definition MustCompile (pattern : string) : syntax :=
  match Compile pattern with
  | Some r => r
  | None => Concat (Literal "000") BeginText
  end.

(** A backtracking matcher in continuation-passing style.  [pos] is the
    offset of [rest] in the whole text, [k] receives the position and the
    text left after a match of [r]. *)
Fixpoint matchAt (r : syntax) (pos : nat) (rest : list ascii)
  (k : nat -> list ascii -> bool) : bool :=
  match r with
  | EmptyMatch => k pos rest
  | Literal c =>
      match rest with
      | c' :: rest' => if Ascii.eqb c' c then k (S pos) rest' else false
      | [] => false
      end
  | BeginText => if Nat.eqb pos 0 then k pos rest else false
  | EndText => match rest with [] => k pos rest | _ :: _ => false end
  | Capture r1 => matchAt r1 pos rest k
  | Concat r1 r2 => matchAt r1 pos rest (fun p s => matchAt r2 p s k)
  | Alternate r1 r2 => matchAt r1 pos rest k || matchAt r2 pos rest k
  end.

Definition accept : nat -> list ascii -> bool := fun _ _ => true.

(** Try every start position, leftmost first. *)
Fixpoint search (r : syntax) (pos : nat) (rest : list ascii) : bool :=
  matchAt r pos rest accept
  || match rest with
     | [] => false
     | _ :: rest' => search r (S pos) rest'
     end.

Definition MatchString (r : syntax) (s : string) : bool :=
  search r 0 (list_ascii_of_string s).

(** Shapes used to reason about parsed patterns. *)
(** [r] followed by the literal characters [lits], as the parser builds it. *)
Definition thenLits (r : syntax) (lits : list ascii) : syntax :=
  fold_left (fun acc c => Concat acc (Literal c)) lits r.

Fixpoint stripPrefix (lits s : list ascii) : option (list ascii) :=
  match lits with
  | [] => Some s
  | c :: lits' =>
      match s with
      | c' :: s' => if Ascii.eqb c' c then stripPrefix lits' s' else None
      | [] => None
      end
  end.

End Regexp.


(** ** The program's patterns (main.go, lines 54-58) *)

Definition shortTermRe : Regexp.syntax :=
  Regexp.MustCompile "^Favorite Short Term Tracks$".
Definition medTermRe : Regexp.syntax :=
  Regexp.MustCompile "^Favorite Medium Term Tracks$".
Definition longTermRe : Regexp.syntax :=
  Regexp.MustCompile "^Favorite Long Term Tracks$".
Definition plMatch : Regexp.syntax :=
  Regexp.MustCompile "^Favorite (Short|Medium|Long) Term Tracks$".

Definition shortTermName : string := "Favorite Short Term Tracks".
Definition medTermName : string := "Favorite Medium Term Tracks".
Definition longTermName : string := "Favorite Long Term Tracks".

(** The shape of an anchored literal pattern [^lits$]. *)
Definition anchoredLits (lits : string) : Regexp.syntax :=
  Regexp.Concat
    (Regexp.thenLits (Regexp.Concat Regexp.EmptyMatch Regexp.BeginText)
       (list_ascii_of_string lits))
    Regexp.EndText.

(** What is left to match after a literal prefix must be the whole rest. *)
Definition endsWith (lits rest : list ascii) : bool :=
  match Regexp.stripPrefix lits rest with
  | Some [] => true
  | _ => false
  end.


(** ** Go values used by the program *)

(** A Go [error]: [nil], or an error with its message. *)
Definition error : Type := option string.
Definition nil_error : error := None.

(** [fmt.Sprintf] for the one verb the program uses, [%v], on arguments that
    print as their text (strings, IDs and error messages). *)
Fixpoint Sprintf_chars (format : list ascii) (args : list string) : string :=
  match format with
  | [] => ""
  | c :: format' =>
      match format' with
      | d :: format'' =>
          if (Ascii.eqb c "%" && Ascii.eqb d "v")%bool then
            match args with
            | a :: args' => a ++ Sprintf_chars format'' args'
            | [] => "%!v(MISSING)" ++ Sprintf_chars format'' []
            end
          else String c (Sprintf_chars format' args)
      | [] => String c ""
      end
  end%string.

Definition Sprintf (format : string) (args : list string) : string :=
  Sprintf_chars (list_ascii_of_string format) args.

Definition Errorf (format : string) (args : list string) : error :=
  Some (Sprintf format args).

Definition newline : string := String "010" EmptyString.

(** ** The remote API (package spotify)

    Only the fields that main.go reads are kept. *)

Module spotify.

Definition ID : Type := string.

(** [spotify.Range] is a string type; its zero value is the empty string. *)
Definition Range : Type := string.
Definition LongTermRange : Range := "long_term".
Definition MediumTermRange : Range := "medium_term".
Definition ShortTermRange : Range := "short_term".

Module FullTrack.
Record t : Type := { ID : spotify.ID }.
End FullTrack.

Module FullTrackPage.
Record t : Type := { Tracks : list FullTrack.t }.
End FullTrackPage.

Module PlaylistItemTrack.
Record t : Type := { Track : FullTrack.t }.
End PlaylistItemTrack.

Module PlaylistItem.
Record t : Type := { Track : PlaylistItemTrack.t }.
End PlaylistItem.

Module PlaylistItemPage.
Record t : Type := { Items : list PlaylistItem.t }.
End PlaylistItemPage.

Module SimplePlaylist.
Record t : Type := {
  ID : spotify.ID;
  Name : string;
  IsPublic : bool;
  Description : string;
  Collaborative : bool
}.
End SimplePlaylist.

Module SimplePlaylistPage.
Record t : Type := { Playlists : list SimplePlaylist.t }.
End SimplePlaylistPage.

Module FullPlaylist.
Record t : Type := { SimplePlaylist : SimplePlaylist.t }.
End FullPlaylist.

Module PrivateUser.
Record t : Type := { ID : string }.
End PrivateUser.

(** The requests the program sends, with their arguments. *)
Inductive Call : Type :=
| CurrentUsersTopTracks (timerange : Range) (limit : Z)
| AddTracksToPlaylist (playlistID : ID) (trackIDs : list ID)
| GetPlaylistItems (playlistID : ID)
| RemoveTracksFromPlaylist (playlistID : ID) (trackIDs : list ID)
| CurrentUsersPlaylists (limit : Z)
| CreatePlaylistForUser (userID name description : string)
    (public collaborative : bool).

(** A request that was sent, and the error it came back with. *)
Record Event : Type := { call : Call; failure : error }.

(** The authenticated client.  The remote service is outside the program:
    each method's answer is a function of the requests sent so far, and the
    pointer results may be nil, as Go's types allow. *)
Record Client : Type := {
  topTracks : list Event -> Range -> Z -> option FullTrackPage.t * error;
  addTracks : list Event -> ID -> list ID -> string * error;
  playlistItems : list Event -> ID -> option PlaylistItemPage.t * error;
  removeTracks : list Event -> ID -> list ID -> string * error;
  usersPlaylists : list Event -> Z -> option SimplePlaylistPage.t * error;
  createPlaylist :
    list Event -> string -> string -> string -> bool -> bool ->
    option FullPlaylist.t * error;
  (** nanoseconds that a request takes *)
  latency : list Event -> Call -> Z
}.

End spotify.

(** ** The process: requests sent, clock, random source, standard output *)

(** An argument of [fmt.Printf] that is not formatted here. *)
Inductive Arg : Type :=
| AString (s : string)
| AUser (u : spotify.PrivateUser.t)
| APlaylists (p : spotify.SimplePlaylistPage.t)
| ATracks (p : option spotify.FullTrackPage.t)
| ADuration (d : Z).

Record Output : Type := { format : string; args : list Arg }.

Record World : Type := {
  log : list spotify.Event;   (* requests sent so far, oldest first *)
  now : Z;                    (* the clock, in nanoseconds *)
  entropy : nat -> Z;         (* what the random source yields, draw by draw *)
  drawn : nat;                (* number of draws made *)
  stdout : list Output
}.

Inductive Outcome (A : Type) : Type :=
| Returns (a : A)
| Exits (code : Z)            (* os.Exit *)
| Panics (msg : string)       (* run-time panic *)
| Spins.                      (* a loop still running when its fuel ran out *)
Arguments Returns {A} a.
Arguments Exits {A} code.
Arguments Panics {A} msg.
Arguments Spins {A}.

Definition M (A : Type) : Type := World -> Outcome A * World.

Definition ret {A} (a : A) : M A := fun w => (Returns a, w).

Definition bind {A B} (m : M A) (f : A -> M B) : M B :=
  fun w =>
    match m w with
    | (Returns a, w') => f a w'
    | (Exits code, w') => (Exits code, w')
    | (Panics msg, w') => (Panics msg, w')
    | (Spins, w') => (Spins, w')
    end.

Declare Scope go_scope.
Delimit Scope go_scope with go.
Notation "x <- m ;; k" := (bind m (fun x => k))
  (at level 61, m at next level, right associativity) : go_scope.
Notation "m ;; k" := (bind m (fun _ => k))
  (at level 61, right associativity) : go_scope.
Open Scope go_scope.

Definition panic {A} (msg : string) : M A := fun w => (Panics msg, w).
Definition os_Exit {A} (code : Z) : M A := fun w => (Exits code, w).
Definition spin {A} : M A := fun w => (Spins, w).

Definition nil_dereference : string :=
  "runtime error: invalid memory address or nil pointer dereference".

Definition Printf (fmt : string) (a : list Arg) : M unit :=
  fun w =>
    (Returns tt,
     {| log := log w; now := now w; entropy := entropy w; drawn := drawn w;
        stdout := stdout w ++ [ {| format := fmt; args := a |} ] |}).

Definition time_Now : M Z := fun w => (Returns (now w), w).

Definition time_Sleep (d : Z) : M unit :=
  fun w =>
    (Returns tt,
     {| log := log w; now := (now w + Z.max 0 d)%Z; entropy := entropy w;
        drawn := drawn w; stdout := stdout w |}).

(** [rand.Float64]: a number in the interval [0,1), a multiple of 2^-53. *)
Definition rand_Float64 : M Q :=
  fun w =>
    (Returns (Qmake (entropy w (drawn w) mod 2 ^ 53) (2 ^ 53)),
     {| log := log w; now := now w; entropy := entropy w;
        drawn := S (drawn w); stdout := stdout w |}).

(** The world after a request: the request and its error are logged, and the
    clock moves by the request's latency. *)
Definition record (c : spotify.Client) (cl : spotify.Call) (e : error)
  (w : World) : World :=
  {| log := log w ++ [ {| spotify.call := cl; spotify.failure := e |} ];
     now := (now w + Z.max 0 (spotify.latency c (log w) cl))%Z;
     entropy := entropy w; drawn := drawn w; stdout := stdout w |}.

(** Sending a request: the answer is the client's, a function of the
    requests sent before. *)
Definition send {R} (c : spotify.Client) (cl : spotify.Call)
  (answer : list spotify.Event -> R * error) : M (R * error) :=
  fun w => let r := answer (log w) in (Returns r, record c cl (snd r) w).

Module client.
Import spotify.

Definition CurrentUsersTopTracks (c : Client) (timerange : Range) (limit : Z) :=
  send c (spotify.CurrentUsersTopTracks timerange limit)
    (fun h => topTracks c h timerange limit).

Definition AddTracksToPlaylist (c : Client) (playlistID : ID)
  (trackIDs : list ID) :=
  send c (spotify.AddTracksToPlaylist playlistID trackIDs)
    (fun h => addTracks c h playlistID trackIDs).

Definition GetPlaylistItems (c : Client) (playlistID : ID) :=
  send c (spotify.GetPlaylistItems playlistID)
    (fun h => playlistItems c h playlistID).

Definition RemoveTracksFromPlaylist (c : Client) (playlistID : ID)
  (trackIDs : list ID) :=
  send c (spotify.RemoveTracksFromPlaylist playlistID trackIDs)
    (fun h => removeTracks c h playlistID trackIDs).

Definition CurrentUsersPlaylists (c : Client) (limit : Z) :=
  send c (spotify.CurrentUsersPlaylists limit)
    (fun h => usersPlaylists c h limit).

Definition CreatePlaylistForUser (c : Client) (userID name description : string)
  (public collaborative : bool) :=
  send c (spotify.CreatePlaylistForUser userID name description public
            collaborative)
    (fun h => createPlaylist c h userID name description public collaborative).

End client.

(** ** The retry wrapper (package github.com/cenkalti/backoff)

    [backoff.Retry] and the exponential policy that
    [backoff.NewExponentialBackOff] builds.  Durations are nanoseconds, as in
    [time.Duration].  The policy's two float64 parameters, and the arithmetic
    on them, are carried out on rationals. *)

Module backoff.

Definition Millisecond : Z := 1000000.
Definition Second : Z := 1000 * Millisecond.
Definition Minute : Z := 60 * Second.

(** [Stop] tells [Retry] that no more attempts are to be made. *)
Definition Stop : Z := -1.

Definition DefaultInitialInterval : Z := 500 * Millisecond.
Definition DefaultRandomizationFactor : Q := 1 # 2.
Definition DefaultMultiplier : Q := 3 # 2.
Definition DefaultMaxInterval : Z := 60 * Second.
Definition DefaultMaxElapsedTime : Z := 15 * Minute.

Record ExponentialBackOff : Type := {
  InitialInterval : Z;
  RandomizationFactor : Q;
  Multiplier : Q;
  MaxInterval : Z;
  MaxElapsedTime : Z;
  currentInterval : Z;
  startTime : Z
}.

(** Conversion of a float to [time.Duration]: the fraction is dropped. *)
Definition truncate (x : Q) : Z :=
  if Qle_bool 0 x then Qfloor x else Qceiling x.

Definition Reset (b : ExponentialBackOff) : M ExponentialBackOff :=
  t <- time_Now;;
  ret {| InitialInterval := InitialInterval b;
         RandomizationFactor := RandomizationFactor b;
         Multiplier := Multiplier b;
         MaxInterval := MaxInterval b;
         MaxElapsedTime := MaxElapsedTime b;
         currentInterval := InitialInterval b;
         startTime := t |}.

Definition NewExponentialBackOff : M ExponentialBackOff :=
  Reset {| InitialInterval := DefaultInitialInterval;
           RandomizationFactor := DefaultRandomizationFactor;
           Multiplier := DefaultMultiplier;
           MaxInterval := DefaultMaxInterval;
           MaxElapsedTime := DefaultMaxElapsedTime;
           currentInterval := 0;
           startTime := 0 |}.

Definition GetElapsedTime (b : ExponentialBackOff) : M Z :=
  t <- time_Now;; ret (t - startTime b)%Z.

Definition getRandomValueFromInterval (randomizationFactor random : Q)
  (currentInterval : Z) : Z :=
  let delta := (randomizationFactor * inject_Z currentInterval)%Q in
  let minInterval := (inject_Z currentInterval - delta)%Q in
  let maxInterval := (inject_Z currentInterval + delta)%Q in
  truncate (minInterval + random * (maxInterval - minInterval + 1))%Q.

Definition incrementCurrentInterval (b : ExponentialBackOff)
  : ExponentialBackOff :=
  {| InitialInterval := InitialInterval b;
     RandomizationFactor := RandomizationFactor b;
     Multiplier := Multiplier b;
     MaxInterval := MaxInterval b;
     MaxElapsedTime := MaxElapsedTime b;
     currentInterval :=
       if Qle_bool (inject_Z (MaxInterval b) / Multiplier b)
                   (inject_Z (currentInterval b))
       then MaxInterval b
       else truncate (inject_Z (currentInterval b) * Multiplier b)%Q;
     startTime := startTime b |}.

(** The pause before the next attempt, or [Stop] once more than
    [MaxElapsedTime] has passed since [Reset]; the policy's interval grows as
    a side effect, so the updated policy is returned with the pause. *)
Definition NextBackOff (b : ExponentialBackOff) : M (Z * ExponentialBackOff) :=
  elapsed <- GetElapsedTime b;;
  if (negb (MaxElapsedTime b =? 0)%Z && (MaxElapsedTime b <? elapsed)%Z)%bool
  then ret (Stop, b)
  else
    random <- rand_Float64;;
    ret (getRandomValueFromInterval (RandomizationFactor b) random
           (currentInterval b),
         incrementCurrentInterval b).

(** The loop of [Retry]: run the operation; on an error ask the policy for
    a pause, give the error back if the policy says [Stop], and otherwise
    sleep and go round again.  The operations of this program never return a
    [*PermanentError], so that test of the loop is left out.  [fuel] bounds
    the number of attempts the model follows; with none left the loop is
    reported as still running. *)
Fixpoint retryLoop (fuel : nat) (operation : M error)
  (b : ExponentialBackOff) : M error :=
  match fuel with
  | O => spin
  | S fuel' =>
      err <- operation;;
      match err with
      | None => ret nil_error
      | Some e =>
          r <- NextBackOff b;;
          if (fst r =? Stop)%Z then ret (Some e)
          else time_Sleep (fst r);; retryLoop fuel' operation (snd r)
      end
  end.

Definition Retry (fuel : nat) (operation : M error)
  (b : ExponentialBackOff) : M error :=
  b' <- Reset b;; retryLoop fuel operation b'.

(** With the default policy every pause is at least half the initial
    interval, so the elapsed time passes [DefaultMaxElapsedTime] within this
    many attempts (see [Retry_default_returns]). *)
Definition maxAttempts : nat :=
  Z.to_nat (DefaultMaxElapsedTime / (DefaultInitialInterval / 2)) + 2.

(** Half the initial interval: no pause of the default policy is shorter. *)
Definition minPause : Z := DefaultInitialInterval / 2.

(** What [Reset] establishes and [NextBackOff] keeps for a policy made by
    [NewExponentialBackOff]. *)
Record isDefault (b : ExponentialBackOff) : Prop := {
  def_initial : InitialInterval b = DefaultInitialInterval;
  def_factor : RandomizationFactor b = DefaultRandomizationFactor;
  def_multiplier : Multiplier b = DefaultMultiplier;
  def_maxInterval : MaxInterval b = DefaultMaxInterval;
  def_maxElapsed : MaxElapsedTime b = DefaultMaxElapsedTime;
  def_current : (DefaultInitialInterval <= currentInterval b)%Z
}.

End backoff.

(** ** The program (main.go) *)

Record playlistConfig : Type := {
  name : string;
  public : bool;
  description : string;
  collaborative : bool;
  duration : spotify.Range;
  user : option spotify.PrivateUser.t;
  id : spotify.ID
}.

(** The zero value of [playlistConfig] ([var c playlistConfig]). *)
Definition zeroConfig : playlistConfig :=
  {| name := ""; public := false; description := ""; collaborative := false;
     duration := ""; user := None; id := "" |}.

Definition getTopTracks (config : playlistConfig) (c : spotify.Client)
  : M (option spotify.FullTrackPage.t * error) :=
  r <- client.CurrentUsersTopTracks c (duration config) 50;;
  match snd r with
  | Some err =>
      ret (None, Errorf "unable to retrieve users top tracks: %v" [err])
  | None =>
      match fst r with
      | None =>
          Printf "tracks returned nil for some reason: %v" [ATracks None];;
          ret (None, nil_error)
      | Some tracks => ret (Some tracks, nil_error)
      end
  end.

(** The operation that [fillPlaylist] hands to [backoff.Retry]. *)
Definition addTrackOp (c : spotify.Client) (playlistID : spotify.ID)
  (track : spotify.FullTrack.t) : M error :=
  r <- client.AddTracksToPlaylist c playlistID [spotify.FullTrack.ID track];;
  match snd r with
  | Some err =>
      ret (Errorf "c.AddTracksToPlaylist(ctx,%v,%v): %v"
             [playlistID; spotify.FullTrack.ID track; err])
  | None => ret nil_error
  end.

(** The loop of [fillPlaylist] over [page.Tracks].  [backoff.maxAttempts] is
    the fuel of the retry loop, which the default policy never uses up (see
    [Retry_default_returns]). *)
Fixpoint fillTracks (c : spotify.Client) (playlistID : spotify.ID)
  (tracks : list spotify.FullTrack.t) : M error :=
  match tracks with
  | [] => ret nil_error
  | track :: tracks' =>
      b <- backoff.NewExponentialBackOff;;
      err <- backoff.Retry backoff.maxAttempts
               (addTrackOp c playlistID track) b;;
      match err with
      | Some e =>
          ret (Errorf "fillPlaylist(ctx,spotifyClient,%v,spotifyFullTrackPage): %v"
                 [playlistID; e])
      | None => fillTracks c playlistID tracks'
      end
  end.

Definition fillPlaylist (c : spotify.Client) (playlistID : spotify.ID)
  (page : option spotify.FullTrackPage.t) : M error :=
  match page with
  | None => panic nil_dereference
  | Some p => fillTracks c playlistID (spotify.FullTrackPage.Tracks p)
  end.

Definition purgeTracks (c : spotify.Client)
  (playlist : spotify.SimplePlaylist.t) : M error :=
  r <- client.GetPlaylistItems c (spotify.SimplePlaylist.ID playlist);;
  match snd r with
  | Some err => ret (Some err)
  | None =>
      match fst r with
      | None => panic nil_dereference
      | Some plTracks =>
          let plTrackIDs :=
            map (fun v =>
                   spotify.FullTrack.ID
                     (spotify.PlaylistItemTrack.Track
                        (spotify.PlaylistItem.Track v)))
                (spotify.PlaylistItemPage.Items plTracks) in
          _ <- client.RemoveTracksFromPlaylist c
                 (spotify.SimplePlaylist.ID playlist) plTrackIDs;;
          ret nil_error
      end
  end.

Definition getCurrentPlaylists (c : spotify.Client)
  : M (option spotify.SimplePlaylistPage.t * error) :=
  r <- client.CurrentUsersPlaylists c 50;;
  match snd r with
  | Some err => ret (None, Some err)
  | None => ret (fst r, nil_error)
  end.

Definition playlistNames : list string :=
  ["Favorite Short Term Tracks"; "Favorite Medium Term Tracks";
   "Favorite Long Term Tracks"].

Definition automatedDescription : string := "automated from top_tracks_cli".

(** The creation loop of [getAutomatedPlaylists] over [playlistNames]. *)
Fixpoint createPlaylists (c : spotify.Client) (user : spotify.PrivateUser.t)
  (names : list string) (foundPlaylists : list spotify.SimplePlaylist.t)
  : M (list spotify.SimplePlaylist.t * error) :=
  match names with
  | [] => ret (foundPlaylists, nil_error)
  | v :: names' =>
      r <- client.CreatePlaylistForUser c (spotify.PrivateUser.ID user) v
             automatedDescription false false;;
      match snd r with
      | Some err =>
          ret ([], Errorf "CreatePlaylistForUser(ctx,%v,%v,%v,false,false): %v"
                     [spotify.PrivateUser.ID user; v; automatedDescription; err])
      | None =>
          match fst r with
          | None => panic nil_dereference
          | Some pl =>
              createPlaylists c user names'
                (foundPlaylists ++ [spotify.FullPlaylist.SimplePlaylist pl])
          end
      end
  end.

Definition matchesAutomated (v : spotify.SimplePlaylist.t) : bool :=
  Regexp.MatchString plMatch (spotify.SimplePlaylist.Name v).

Definition getAutomatedPlaylists (c : spotify.Client)
  (user : spotify.PrivateUser.t)
  (playlists : option spotify.SimplePlaylistPage.t)
  : M (list spotify.SimplePlaylist.t * error) :=
  match playlists with
  | None => panic nil_dereference
  | Some page =>
      let foundPlaylists :=
        filter matchesAutomated (spotify.SimplePlaylistPage.Playlists page) in
      if (List.length foundPlaylists =? 0)%nat
      then createPlaylists c user playlistNames foundPlaylists
      else ret (foundPlaylists, nil_error)
  end.

(** [getTopTracksAndFill] without its wait group, whose [Done] is deferred
    to the return of the function (see [Tasks]). *)
Definition getTopTracksAndFill (c : spotify.Client) (p : playlistConfig)
  : M error :=
  r <- getTopTracks p c;;
  match snd r with
  | Some err => ret (Errorf ("getTopTracks(): %v" ++ newline) [err])
  | None =>
      err <- fillPlaylist c (id p) (fst r);;
      match err with
      | Some e => ret (Errorf ("fillPlaylist(): %v" ++ newline) [e])
      | None => ret nil_error
      end
  end.


(** *** [main], for the subcommand [playlist] (lines 244-360)

    [user] is the result of [client.CurrentUser], [start] the time read at
    the top of [main]. *)

Record Flags : Type := {
  playlistList : bool;             (* --list_all *)
  playlistPurgeFavTracks : bool;   (* --purge_fav *)
  playlistFill : bool              (* --fill *)
}.

Fixpoint printPlaylists (l : list spotify.SimplePlaylist.t) : M unit :=
  match l with
  | [] => ret tt
  | v :: l' =>
      Printf ("name: %v	id: %v" ++ newline)
        [AString (spotify.SimplePlaylist.Name v);
         AString (spotify.SimplePlaylist.ID v)];;
      printPlaylists l'
  end.

(** Lines 250-260. *)
Definition main_list_all (c : spotify.Client) (user : spotify.PrivateUser.t)
  : M unit :=
  Printf ("Printing all current playlists for user: %v" ++ newline)
    [AString (spotify.PrivateUser.ID user)];;
  r <- getCurrentPlaylists c;;
  match snd r with
  | Some err =>
      Printf ("unable to get user playlists: %v" ++ newline) [AString err];;
      os_Exit 1
  | None =>
      match fst r with
      | None => panic nil_dereference
      | Some allUsersPlaylists =>
          printPlaylists (spotify.SimplePlaylistPage.Playlists allUsersPlaylists)
      end
  end.

(** The loop of lines 273-279. *)
Fixpoint purgeEach (c : spotify.Client) (l : list spotify.SimplePlaylist.t)
  : M unit :=
  match l with
  | [] => ret tt
  | v :: l' =>
      Printf ("purging tracks on playlist %v" ++ newline)
        [AString (spotify.SimplePlaylist.Name v)];;
      err <- purgeTracks c v;;
      match err with
      | Some e => Printf ("purgeTracks() failed: %v" ++ newline) [AString e]
      | None => ret tt
      end;;
      purgeEach c l'
  end.

Definition optionalPlaylists (p : option spotify.SimplePlaylistPage.t)
  : list Arg :=
  match p with
  | Some page => [APlaylists page]
  | None => [AString "<nil>"]
  end.

(** Lines 263-272 and 284-293: the user's playlists, then the automated
    ones among them. *)
Definition main_automatedPlaylists (c : spotify.Client)
  (user : spotify.PrivateUser.t) (eol : string)
  : M (list spotify.SimplePlaylist.t) :=
  r <- getCurrentPlaylists c;;
  match snd r with
  | Some err =>
      Printf ("unable to get user playlists: %v" ++ eol) [AString err];;
      os_Exit 1
  | None =>
      r' <- getAutomatedPlaylists c user (fst r);;
      match snd r' with
      | Some err =>
          Printf "getAutomatedPlaylists(ctx,client,%v,%v): %v"
            (AUser user :: optionalPlaylists (fst r) ++ [AString err]);;
          os_Exit 1
      | None => ret (fst r')
      end
  end.

(** Lines 261-280. *)
Definition main_purge_fav (c : spotify.Client) (user : spotify.PrivateUser.t)
  : M unit :=
  Printf ("Purging tracks from the automated playlists" ++ newline) [];;
  automatedPlaylists <- main_automatedPlaylists c user newline;;
  purgeEach c automatedPlaylists.

Definition configOf (v : spotify.SimplePlaylist.t) (d : spotify.Range)
  (user : spotify.PrivateUser.t) : playlistConfig :=
  {| name := spotify.SimplePlaylist.Name v;
     public := spotify.SimplePlaylist.IsPublic v;
     description := spotify.SimplePlaylist.Description v;
     collaborative := spotify.SimplePlaylist.Collaborative v;
     duration := d;
     user := Some user;
     id := spotify.SimplePlaylist.ID v |}.

Record Configs : Type := {
  shortTermConfig : playlistConfig;
  medTermConfig : playlistConfig;
  longTermConfig : playlistConfig
}.

(** One round of the loop of lines 297-331: three tests in a row, each of
    which may overwrite its configuration. *)
Definition assignConfig (user : spotify.PrivateUser.t) (cs : Configs)
  (v : spotify.SimplePlaylist.t) : Configs :=
  let cs1 :=
    if Regexp.MatchString shortTermRe (spotify.SimplePlaylist.Name v)
    then {| shortTermConfig := configOf v spotify.ShortTermRange user;
            medTermConfig := medTermConfig cs;
            longTermConfig := longTermConfig cs |}
    else cs in
  let cs2 :=
    if Regexp.MatchString medTermRe (spotify.SimplePlaylist.Name v)
    then {| shortTermConfig := shortTermConfig cs1;
            medTermConfig := configOf v spotify.MediumTermRange user;
            longTermConfig := longTermConfig cs1 |}
    else cs1 in
  if Regexp.MatchString longTermRe (spotify.SimplePlaylist.Name v)
  then {| shortTermConfig := shortTermConfig cs2;
          medTermConfig := medTermConfig cs2;
          longTermConfig := configOf v spotify.LongTermRange user |}
  else cs2.

(** Lines 294-331. *)
Definition main_configs (user : spotify.PrivateUser.t)
  (automatedPlaylists : list spotify.SimplePlaylist.t) : Configs :=
  fold_left (assignConfig user) automatedPlaylists
    {| shortTermConfig := zeroConfig;
       medTermConfig := zeroConfig;
       longTermConfig := zeroConfig |}.

Definition doneMessage (start : Z) : M unit :=
  t <- time_Now;;
  Printf ("Done! Completed in %v" ++ newline) [ADuration (t - start)].

(** How the sequential part of [main] ends: at its last line, or at the
    three [go] statements of fill mode with the configurations they get. *)
Inductive Continuation : Type :=
| Finished
| Fork (cs : Configs).

Definition main (flags : Flags) (c : spotify.Client)
  (user : spotify.PrivateUser.t) (start : Z) : M Continuation :=
  (if playlistList flags then main_list_all c user else ret tt);;
  (if playlistPurgeFavTracks flags then main_purge_fav c user else ret tt);;
  if playlistFill flags then
    automatedPlaylists <- main_automatedPlaylists c user "";;
    ret (Fork (main_configs user automatedPlaylists))
  else
    doneMessage start;; ret Finished.

(** *** The three fill tasks (lines 334-360)

    [main] adds 3 to the wait group, starts three goroutines, waits for the
    group, prints the last line and returns.  Each goroutine runs
    [getTopTracksAndFill], whose deferred [wg.Done] runs when it returns or
    panics; it then tests the error and, if there is one, prints it and
    calls [os.Exit(1)].  The goroutines and [main] are interleaved step by
    step.  The requests inside the three bodies interleave too, so the
    result of a body is not fixed by this relation: any result is allowed. *)

Module Tasks.

Inductive TaskState : Type :=
| Running                    (* inside getTopTracksAndFill *)
| Returned (err : error)     (* wg.Done called, error not tested yet *)
| Reported                   (* the error is printed, os.Exit not yet called *)
| Crashed                    (* panicked; wg.Done called while unwinding *)
| Ended.                     (* the goroutine is over *)

Record Task : Type := { config : playlistConfig; state : TaskState }.

Inductive MainPC : Type :=
| AtAdd            (* before wg.Add(3) *)
| AtGo (n : nat)   (* n goroutines started *)
| AtWait           (* in wg.Wait() *)
| AtPrint          (* wg.Wait() returned *)
| AtReturn.        (* the last line is printed *)

Record Process : Type := {
  pc : MainPC;
  wg : Z;                      (* the wait group's counter *)
  tasks : list Task;           (* the goroutines started, in order *)
  output : list Output;
  exited : option Z            (* the exit code, once the process is over *)
}.

Definition init : Process :=
  {| pc := AtAdd; wg := 0; tasks := []; output := []; exited := None |}.

Definition configsList (cs : Configs) : list playlistConfig :=
  [shortTermConfig cs; medTermConfig cs; longTermConfig cs].

Definition setTask (i : nat) (st : TaskState) (l : list Task) : list Task :=
  match nth_error l i with
  | Some t =>
      firstn i l ++ {| config := config t; state := st |} :: skipn (S i) l
  | None => l
  end.

Definition stateOf (i : nat) (l : list Task) : option TaskState :=
  option_map state (nth_error l i).

Definition failedMessage (e : string) : Output :=
  {| format := "getTopTracksAndFill() failed: %v"; args := [AString e] |}.

Definition lastLine (elapsed : Z) : Output :=
  {| format := "Done! Completed in %v" ++ newline;
     args := [ADuration elapsed] |}.

Inductive step (cs : Configs) : Process -> Process -> Prop :=
| step_add p :
    exited p = None -> pc p = AtAdd ->
    step cs p {| pc := AtGo 0; wg := wg p + 3; tasks := tasks p;
                 output := output p; exited := None |}
| step_go p n cfg :
    exited p = None -> pc p = AtGo n ->
    nth_error (configsList cs) n = Some cfg ->
    step cs p {| pc := if (S n =? 3)%nat then AtWait else AtGo (S n);
                 wg := wg p;
                 tasks := tasks p ++ [ {| config := cfg; state := Running |} ];
                 output := output p; exited := None |}
| step_wait p :
    exited p = None -> pc p = AtWait -> wg p = 0%Z ->
    step cs p {| pc := AtPrint; wg := wg p; tasks := tasks p;
                 output := output p; exited := None |}
| step_print p elapsed :
    exited p = None -> pc p = AtPrint ->
    step cs p {| pc := AtReturn; wg := wg p; tasks := tasks p;
                 output := output p ++ [lastLine elapsed]; exited := None |}
| step_return p :
    exited p = None -> pc p = AtReturn ->
    step cs p {| pc := AtReturn; wg := wg p; tasks := tasks p;
                 output := output p; exited := Some 0%Z |}
| step_task_returns p i err :
    exited p = None -> stateOf i (tasks p) = Some Running ->
    step cs p {| pc := pc p; wg := wg p - 1;
                 tasks := setTask i (Returned err) (tasks p);
                 output := output p; exited := None |}
| step_task_panics p i :
    exited p = None -> stateOf i (tasks p) = Some Running ->
    step cs p {| pc := pc p; wg := wg p - 1;
                 tasks := setTask i Crashed (tasks p);
                 output := output p; exited := None |}
| step_task_ends p i :
    exited p = None -> stateOf i (tasks p) = Some (Returned None) ->
    step cs p {| pc := pc p; wg := wg p;
                 tasks := setTask i Ended (tasks p);
                 output := output p; exited := None |}
| step_task_reports p i e :
    exited p = None -> stateOf i (tasks p) = Some (Returned (Some e)) ->
    step cs p {| pc := pc p; wg := wg p;
                 tasks := setTask i Reported (tasks p);
                 output := output p ++ [failedMessage e]; exited := None |}
| step_task_exits p i :
    exited p = None -> stateOf i (tasks p) = Some Reported ->
    step cs p {| pc := pc p; wg := wg p; tasks := tasks p;
                 output := output p; exited := Some 1%Z |}
| step_crash p i :
    exited p = None -> stateOf i (tasks p) = Some Crashed ->
    step cs p {| pc := pc p; wg := wg p; tasks := tasks p;
                 output := output p; exited := Some 2%Z |}.

Inductive reachable (cs : Configs) : Process -> Prop :=
| reach_init : reachable cs init
| reach_step p q : reachable cs p -> step cs p q -> reachable cs q.

(** The task has passed the deferred [wg.Done]. *)
Definition joined (t : Task) : bool :=
  match state t with
  | Running => false
  | _ => true
  end.

(** The process when the three goroutines have just been started. *)
Definition started (cs : Configs) : Process :=
  {| pc := AtWait; wg := 3;
     tasks := map (fun cfg => {| config := cfg; state := Running |})
                (configsList cs);
     output := []; exited := None |}.


Definition countJoined (l : list Task) : nat := List.length (filter joined l).


End Tasks.

(** The ID that [purgeTracks] reads from an item: [v.Track.Track.ID]. *)
Definition itemID (v : spotify.PlaylistItem.t) : spotify.ID :=
  spotify.FullTrack.ID
    (spotify.PlaylistItemTrack.Track (spotify.PlaylistItem.Track v)).

(** The creation request that [getAutomatedPlaylists] sends for the playlist
    called [n], and the event of its success. *)
Definition createCall (user : spotify.PrivateUser.t) (n : string)
  : spotify.Call :=
  spotify.CreatePlaylistForUser (spotify.PrivateUser.ID user) n
    "automated from top_tracks_cli" false false.

Definition created (user : spotify.PrivateUser.t) (n : string)
  : spotify.Event :=
  {| spotify.call := createCall user n; spotify.failure := nil_error |}.

(** The add-tracks request for one track, and the events of the attempts
    made on it: the failed ones, with their errors, then the successful one
    if there is one. *)
Definition addCall (playlistID : spotify.ID) (track : spotify.FullTrack.t)
  : spotify.Call :=
  spotify.AddTracksToPlaylist playlistID [spotify.FullTrack.ID track].

Definition failedAdd (playlistID : spotify.ID) (track : spotify.FullTrack.t)
  (e : string) : spotify.Event :=
  {| spotify.call := addCall playlistID track; spotify.failure := Some e |}.

Definition succeededAdd (playlistID : spotify.ID)
  (track : spotify.FullTrack.t) : spotify.Event :=
  {| spotify.call := addCall playlistID track; spotify.failure := nil_error |}.

Definition attempts (playlistID : spotify.ID) (track : spotify.FullTrack.t)
  (errs : list string) (ok : bool) : list spotify.Event :=
  map (failedAdd playlistID track) errs
  ++ (if ok then [succeededAdd playlistID track] else []).

(** The events of one track in a run of [fillPlaylist]: [servedBy] when the
    request was repeated until it succeeded, [abandoned] when the retry
    wrapper gave up after a failed attempt. *)
Definition servedBy (playlistID : spotify.ID) (track : spotify.FullTrack.t)
  (g : list spotify.Event) : Prop :=
  exists errs, g = attempts playlistID track errs true.

Definition abandoned (playlistID : spotify.ID) (track : spotify.FullTrack.t)
  (g : list spotify.Event) : Prop :=
  exists errs, errs <> [] /\ g = attempts playlistID track errs false.

Definition succeeded (ev : spotify.Event) : bool :=
  match spotify.failure ev with
  | None => true
  | Some _ => false
  end.

(** The last playlist of a list that is called [n]. *)
Fixpoint lastNamed (n : string) (l : list spotify.SimplePlaylist.t)
  : option spotify.SimplePlaylist.t :=
  match l with
  | [] => None
  | v :: l' =>
      match lastNamed n l' with
      | Some u => Some u
      | None => if String.eqb (spotify.SimplePlaylist.Name v) n
                then Some v else None
      end
  end.

Definition fillOnly : Flags :=
  {| playlistList := false; playlistPurgeFavTracks := false;
     playlistFill := true |}.

Definition purgeOnly : Flags :=
  {| playlistList := false; playlistPurgeFavTracks := true;
     playlistFill := false |}.

(** ** Sample services and worlds, for concrete runs *)

Module Samples.
Import spotify.

Definition track (i : ID) : FullTrack.t := {| FullTrack.ID := i |}.

Definition item (i : ID) : PlaylistItem.t :=
  {| PlaylistItem.Track := {| PlaylistItemTrack.Track := track i |} |}.

Definition playlist (i : ID) (n : string) : SimplePlaylist.t :=
  {| SimplePlaylist.ID := i; SimplePlaylist.Name := n;
     SimplePlaylist.IsPublic := false; SimplePlaylist.Description := "";
     SimplePlaylist.Collaborative := false |}.

Definition me : PrivateUser.t := {| PrivateUser.ID := "me" |}.

(** A service on which every request succeeds at once: the user has the
    playlists [pls], the top tracks [top], and every playlist lists
    [items]. *)
Definition healthy (pls : list SimplePlaylist.t) (top : list FullTrack.t)
  (items : list PlaylistItem.t) : Client :=
  {| topTracks := fun _ _ _ =>
       (Some {| FullTrackPage.Tracks := top |}, nil_error);
     addTracks := fun _ _ _ => ("snapshot", nil_error);
     playlistItems := fun _ _ =>
       (Some {| PlaylistItemPage.Items := items |}, nil_error);
     removeTracks := fun _ _ _ => ("snapshot", nil_error);
     usersPlaylists := fun _ _ =>
       (Some {| SimplePlaylistPage.Playlists := pls |}, nil_error);
     createPlaylist := fun _ _ n d pub col =>
       (Some {| FullPlaylist.SimplePlaylist :=
                  {| SimplePlaylist.ID := ("id of " ++ n)%string;
                     SimplePlaylist.Name := n;
                     SimplePlaylist.IsPublic := pub;
                     SimplePlaylist.Description := d;
                     SimplePlaylist.Collaborative := col |} |}, nil_error);
     latency := fun _ _ => 0%Z |}.

Definition withAddTracks
  (f : list Event -> ID -> list ID -> string * error) (c : Client) : Client :=
  {| topTracks := topTracks c; addTracks := f;
     playlistItems := playlistItems c; removeTracks := removeTracks c;
     usersPlaylists := usersPlaylists c; createPlaylist := createPlaylist c;
     latency := latency c |}.

Definition withRemoveTracks
  (f : list Event -> ID -> list ID -> string * error) (c : Client) : Client :=
  {| topTracks := topTracks c; addTracks := addTracks c;
     playlistItems := playlistItems c; removeTracks := f;
     usersPlaylists := usersPlaylists c; createPlaylist := createPlaylist c;
     latency := latency c |}.

Definition withTopTracks
  (f : list Event -> Range -> Z -> option FullTrackPage.t * error)
  (c : Client) : Client :=
  {| topTracks := f; addTracks := addTracks c;
     playlistItems := playlistItems c; removeTracks := removeTracks c;
     usersPlaylists := usersPlaylists c; createPlaylist := createPlaylist c;
     latency := latency c |}.

(** The add-tracks request fails on the first [n] requests of the run. *)
Definition addFailsFirst (n : nat) : list Event -> ID -> list ID -> string * error :=
  fun h _ _ =>
    if (List.length h <? n)%nat then ("", Some "503 Service Unavailable")
    else ("snapshot", nil_error).

Definition withUsersPlaylists
  (f : list Event -> Z -> option SimplePlaylistPage.t * error)
  (c : Client) : Client :=
  {| topTracks := topTracks c; addTracks := addTracks c;
     playlistItems := playlistItems c; removeTracks := removeTracks c;
     usersPlaylists := f; createPlaylist := createPlaylist c;
     latency := latency c |}.

Definition withCreatePlaylist
  (f : list Event -> string -> string -> string -> bool -> bool ->
       option FullPlaylist.t * error)
  (c : Client) : Client :=
  {| topTracks := topTracks c; addTracks := addTracks c;
     playlistItems := playlistItems c; removeTracks := removeTracks c;
     usersPlaylists := usersPlaylists c; createPlaylist := f;
     latency := latency c |}.

Definition withPlaylistItems
  (f : list Event -> ID -> option PlaylistItemPage.t * error)
  (c : Client) : Client :=
  {| topTracks := topTracks c; addTracks := addTracks c;
     playlistItems := f; removeTracks := removeTracks c;
     usersPlaylists := usersPlaylists c; createPlaylist := createPlaylist c;
     latency := latency c |}.

Definition alwaysFails : list Event -> ID -> list ID -> string * error :=
  fun _ _ _ => ("", Some "503 Service Unavailable").

Definition world0 : World :=
  {| log := []; now := 0; entropy := fun _ => 0%Z; drawn := 0; stdout := [] |}.

End Samples.

(** ** The rest of main.go *)

(** The loop of [createPlaylist] over [page.Tracks] (lines 94-99): one
    request per track and no retry; the first error ends the loop. *)
Fixpoint addEach (c : spotify.Client) (playlistID : spotify.ID)
  (tracks : list spotify.FullTrack.t) : M error :=
  match tracks with
  | [] => ret nil_error
  | v :: tracks' =>
      r <- client.AddTracksToPlaylist c playlistID [spotify.FullTrack.ID v];;
      match snd r with
      | Some err =>
          ret (Errorf ("AddTracksToPlaylist(): unable to add track: %v"
                       ++ newline) [err])
      | None => addEach c playlistID tracks'
      end
  end.

(** The method [createPlaylist] (lines 89-101).  [config.user] is
    dereferenced for the arguments of the creation request, [page] when the
    loop starts, and [newPlaylist] only when the loop body runs. *)
Definition createPlaylist (config : playlistConfig) (c : spotify.Client)
  (page : option spotify.FullTrackPage.t) : M error :=
  match user config with
  | None => panic nil_dereference
  | Some u =>
      r <- client.CreatePlaylistForUser c (spotify.PrivateUser.ID u)
             (name config) (description config) (public config)
             (collaborative config);;
      match snd r with
      | Some err => ret (Some err)
      | None =>
          match page with
          | None => panic nil_dereference
          | Some p =>
              match spotify.FullTrackPage.Tracks p with
              | [] => ret nil_error
              | _ :: _ =>
                  match fst r with
                  | None => panic nil_dereference
                  | Some newPlaylist =>
                      addEach c
                        (spotify.SimplePlaylist.ID
                           (spotify.FullPlaylist.SimplePlaylist newPlaylist))
                        (spotify.FullTrackPage.Tracks p)
                  end
              end
          end
      end
  end.


(** The error of [getAutomatedPlaylists] for a playlist that could not be
    created. *)
Definition creationError (user : spotify.PrivateUser.t) (n err : string)
  : string :=
  Sprintf "CreatePlaylistForUser(ctx,%v,%v,%v,false,false): %v"
    [spotify.PrivateUser.ID user; n; automatedDescription; err].




(** More about the states of the three fill tasks: what the wait group's
    counter is at every point of [main], and where an exit status comes
    from. *)
Module TaskAccounting.
Import Tasks.

Definition added (p : Process) : Z :=
  match pc p with
  | AtAdd => 0
  | _ => 3
  end.

Definition hasState (st : TaskState) (p : Process) : Prop :=
  exists i, stateOf i (tasks p) = Some st.

Record accounting (p : Process) : Prop := {
  acc_wg : wg p = (added p - Z.of_nat (countJoined (tasks p)))%Z;
  acc_tasks : (List.length (tasks p) <= 3)%nat;
  acc_started :
    match pc p with
    | AtAdd => tasks p = []
    | AtGo n => List.length (tasks p) = n /\ (n < 3)%nat
    | _ => List.length (tasks p) = 3%nat
    end;
  acc_exit0 : exited p = Some 0%Z -> pc p = AtReturn;
  acc_exit1 : exited p = Some 1%Z -> hasState Reported p;
  acc_exit2 : exited p = Some 2%Z -> hasState Crashed p;
  acc_codes :
    exited p = None \/ exited p = Some 0%Z \/ exited p = Some 1%Z
    \/ exited p = Some 2%Z;
  acc_reported :
    forall i, stateOf i (tasks p) = Some Reported ->
      exists e, In (failedMessage e) (output p)
}.

End TaskAccounting.

(** * Part II: properties *)

Module RegexpFacts.
Import Regexp.

Lemma matchAt_ext r :
  forall pos rest k1 k2,
    (forall p s, k1 p s = k2 p s) ->
    matchAt r pos rest k1 = matchAt r pos rest k2.
Proof.
  induction r; intros pos rest k1 k2 Hk; simpl.
  - apply Hk.
  - destruct rest as [|c' rest']; [reflexivity|].
    destruct (Ascii.eqb c' c); [apply Hk | reflexivity].
  - destruct (Nat.eqb pos 0); [apply Hk | reflexivity].
  - destruct rest; [apply Hk | reflexivity].
  - apply IHr; assumption.
  - apply IHr1. intros p s. apply IHr2. assumption.
  - rewrite (IHr1 pos rest k1 k2 Hk), (IHr2 pos rest k1 k2 Hk). reflexivity.
Qed.

Lemma matchAt_thenLits lits :
  forall r pos rest k,
    matchAt (thenLits r lits) pos rest k
    = matchAt r pos rest
        (fun p s => match stripPrefix lits s with
                    | Some s' => k (p + List.length lits) s'
                    | None => false
                    end).
Proof.
  induction lits as [|c lits IH]; intros r pos rest k; simpl.
  - apply matchAt_ext. intros p s. rewrite Nat.add_0_r. reflexivity.
  - change (thenLits r (c :: lits)) with (thenLits (Concat r (Literal c)) lits).
    rewrite IH. simpl.
    apply matchAt_ext. intros p s.
    destruct s as [|c' s']; [reflexivity|].
    destruct (Ascii.eqb c' c); [|reflexivity].
    replace (p + S (List.length lits)) with (S p + List.length lits) by lia.
    reflexivity.
Qed.

Lemma stripPrefix_Some lits :
  forall s s', stripPrefix lits s = Some s' <-> s = lits ++ s'.
Proof.
  induction lits as [|c lits IH]; intros s s'; simpl.
  - split; [intros [= ->] | intros ->]; reflexivity.
  - destruct s as [|c' s0].
    + split; discriminate.
    + destruct (Ascii.eqb_spec c' c) as [->|Hne].
      * rewrite IH. split; [intros -> | intros [= ->]]; reflexivity.
      * split; [discriminate | intros [= Hc _]; contradiction].
Qed.

Lemma stripPrefix_app lits s : stripPrefix lits (lits ++ s) = Some s.
Proof. apply stripPrefix_Some. reflexivity. Qed.

(** A pattern that begins with [^] can match at offset 0 only. *)
Lemma search_anchored r rest :
  (forall p s, matchAt r (S p) s accept = false) ->
  search r 0 rest = matchAt r 0 rest accept.
Proof.
  intros Hanch.
  assert (Hs : forall s p, search r (S p) s = false).
  { induction s as [|c s IH]; intros p; simpl; rewrite Hanch; simpl;
      [reflexivity | apply IH]. }
  destruct rest as [|c rest]; simpl; [apply orb_false_r|].
  rewrite Hs. apply orb_false_r.
Qed.

Lemma list_ascii_of_string_inj s1 s2 :
  list_ascii_of_string s1 = list_ascii_of_string s2 -> s1 = s2.
Proof.
  intros H.
  rewrite <- (string_of_list_ascii_of_string s1),
          <- (string_of_list_ascii_of_string s2), H.
  reflexivity.
Qed.

End RegexpFacts.

Section PatternFacts.
Import Regexp RegexpFacts.

Let chars := list_ascii_of_string.

Lemma patterns_compile :
  Compile "^Favorite Short Term Tracks$" <> None
  /\ Compile "^Favorite Medium Term Tracks$" <> None
  /\ Compile "^Favorite Long Term Tracks$" <> None
  /\ Compile "^Favorite (Short|Medium|Long) Term Tracks$" <> None.
Proof. repeat split; vm_compute; discriminate. Qed.

Lemma shortTermRe_shape : shortTermRe = anchoredLits shortTermName.
Proof. reflexivity. Qed.
Lemma medTermRe_shape : medTermRe = anchoredLits medTermName.
Proof. reflexivity. Qed.
Lemma longTermRe_shape : longTermRe = anchoredLits longTermName.
Proof. reflexivity. Qed.

Lemma plMatch_shape :
  plMatch =
  Concat
    (thenLits
       (Concat
          (thenLits (Concat EmptyMatch BeginText) (chars "Favorite "))
          (Capture
             (Alternate (thenLits EmptyMatch (chars "Short"))
                (Alternate (thenLits EmptyMatch (chars "Medium"))
                   (thenLits EmptyMatch (chars "Long"))))))
       (chars " Term Tracks"))
    EndText.
Proof. reflexivity. Qed.

Lemma endsWith_true lits rest : endsWith lits rest = true <-> rest = lits.
Proof.
  unfold endsWith.
  destruct (stripPrefix lits rest) as [s'|] eqn:E.
  - apply stripPrefix_Some in E. subst rest.
    destruct s' as [|c s'].
    + rewrite app_nil_r. tauto.
    + split; [discriminate|].
      intros H. apply (f_equal (@List.length ascii)) in H.
      rewrite length_app in H. simpl in H. lia.
  - split; [discriminate|]. intros ->.
    pose proof (stripPrefix_app lits []) as E'.
    rewrite app_nil_r in E'. congruence.
Qed.

Lemma MatchString_anchoredLits lits s :
  MatchString (anchoredLits lits) s = true <-> s = lits.
Proof.
  unfold MatchString, anchoredLits.
  rewrite search_anchored.
  2:{ intros p t. simpl. rewrite matchAt_thenLits. reflexivity. }
  simpl. rewrite matchAt_thenLits. simpl.
  change (match stripPrefix (chars lits) (list_ascii_of_string s) with
          | Some [] => accept (0 + List.length (chars lits)) []
          | Some (_ :: _) => false
          | None => false
          end = true <-> s = lits).
  transitivity (endsWith (chars lits) (list_ascii_of_string s) = true).
  - unfold endsWith.
    destruct (stripPrefix (chars lits) (list_ascii_of_string s)) as [[|]|];
      unfold accept; tauto.
  - rewrite endsWith_true. split.
    + apply list_ascii_of_string_inj.
    + intros ->. reflexivity.
Qed.

Lemma plMatch_at_start rest :
  matchAt plMatch 0 rest accept =
  match stripPrefix (chars "Favorite ") rest with
  | Some s1 =>
      match stripPrefix (chars "Short") s1 with
      | Some s2 => endsWith (chars " Term Tracks") s2
      | None => false
      end
      || (match stripPrefix (chars "Medium") s1 with
          | Some s2 => endsWith (chars " Term Tracks") s2
          | None => false
          end
          || match stripPrefix (chars "Long") s1 with
             | Some s2 => endsWith (chars " Term Tracks") s2
             | None => false
             end)
  | None => false
  end.
Proof.
  rewrite plMatch_shape.
  cbn [matchAt]. rewrite matchAt_thenLits. cbn [matchAt].
  rewrite matchAt_thenLits. cbn [matchAt Nat.eqb].
  destruct (stripPrefix (chars "Favorite ") rest) as [s1|]; [|reflexivity].
  rewrite !matchAt_thenLits. cbn [matchAt].
  unfold endsWith, accept. reflexivity.
Qed.

Lemma plMatch_anchored p s : matchAt plMatch (S p) s accept = false.
Proof.
  rewrite plMatch_shape.
  cbn [matchAt]. rewrite matchAt_thenLits. cbn [matchAt].
  rewrite matchAt_thenLits. reflexivity.
Qed.

(** C4. The playlist-name matcher [plMatch] accepts exactly the three
    strings "Favorite Short Term Tracks", "Favorite Medium Term Tracks" and
    "Favorite Long Term Tracks"; every other string is rejected, in
    particular one that only contains one of these names. *)
Theorem plMatch_accepts_exactly_three_names (s : string) :
  MatchString plMatch s = true <->
  s = "Favorite Short Term Tracks"
  \/ s = "Favorite Medium Term Tracks"
  \/ s = "Favorite Long Term Tracks".
Proof.
  unfold MatchString.
  rewrite (search_anchored plMatch _ plMatch_anchored), plMatch_at_start.
  split.
  - destruct (stripPrefix (chars "Favorite ") (list_ascii_of_string s))
      as [s1|] eqn:E1; [|discriminate].
    apply stripPrefix_Some in E1.
    intros H. apply orb_true_iff in H. rewrite orb_true_iff in H.
    assert (Hcase : forall name mid,
      match stripPrefix (chars mid) s1 with
      | Some s2 => endsWith (chars " Term Tracks") s2
      | None => false
      end = true ->
      chars name = chars "Favorite " ++ chars mid ++ chars " Term Tracks" ->
      s = name).
    { intros name mid Hm Hname.
      destruct (stripPrefix (chars mid) s1) as [s2|] eqn:E2; [|discriminate].
      apply stripPrefix_Some in E2. apply endsWith_true in Hm.
      apply list_ascii_of_string_inj.
      subst s1 s2. rewrite E1. symmetry. exact Hname. }
    destruct H as [H|[H|H]].
    + left. apply (Hcase _ "Short" H). reflexivity.
    + right; left. apply (Hcase _ "Medium" H). reflexivity.
    + right; right. apply (Hcase _ "Long" H). reflexivity.
  - intros [ -> | [ -> | -> ] ]; reflexivity.
Qed.

Example plMatch_rejects_containing :
  MatchString plMatch "My Favorite Short Term Tracks" = false
  /\ MatchString plMatch "Favorite Short Term Tracks 2" = false
  /\ MatchString plMatch "Favorite Short Term Tracks
" = false
  /\ MatchString plMatch "favorite short term tracks" = false
  /\ MatchString plMatch "Favorite  Term Tracks" = false.
Proof. repeat split; reflexivity. Qed.

End PatternFacts.

(** ** Requests of a run *)

Section Purge.
Import spotify.
Variable c : Client.


End Purge.


Section Discovery.
Import spotify.
Variable c : Client.
Variable user : PrivateUser.t.

Let createCall := createCall user.
Let created := created user.

Lemma createPlaylists_cons v names found w :
  createPlaylists c user (v :: names) found w =
  match createPlaylist c (log w) (PrivateUser.ID user) v
          automatedDescription false false with
  | (_, Some err) =>
      (Returns ([], Errorf "CreatePlaylistForUser(ctx,%v,%v,%v,false,false): %v"
                      [PrivateUser.ID user; v; automatedDescription; err]),
       record c (createCall v) (Some err) w)
  | (None, None) =>
      (Panics nil_dereference, record c (createCall v) None w)
  | (Some pl, None) =>
      createPlaylists c user names (found ++ [FullPlaylist.SimplePlaylist pl])
        (record c (createCall v) None w)
  end.
Proof.
  cbn [createPlaylists]. unfold bind, client.CreatePlaylistForUser, send.
  destruct (createPlaylist c (log w) (PrivateUser.ID user) v
              automatedDescription false false) as [[pl|] [err|]];
    reflexivity.
Qed.

(** C6. [getAutomatedPlaylists] returns exactly those of the user's
    playlists whose names match the automated-playlist pattern, in their
    order and without sending anything; and when no name matches, it sends
    the creation requests for "Favorite Short Term Tracks", "Favorite Medium
    Term Tracks" and "Favorite Long Term Tracks" (not public, not
    collaborative, described as "automated from top_tracks_cli") and returns
    the three playlists that the service answered with. *)
Theorem getAutomatedPlaylists_finds_or_creates
  (page : SimplePlaylistPage.t) (w w' : World)
  (found : list SimplePlaylist.t) :
  getAutomatedPlaylists c user (Some page) w
    = (Returns (found, nil_error), w') ->
  let matching :=
    filter (fun v => Regexp.MatchString plMatch (SimplePlaylist.Name v))
      (SimplePlaylistPage.Playlists page) in
  (matching <> [] -> found = matching /\ w' = w)
  /\ (matching = [] ->
      exists p1 p2 p3,
        let w1 := record c (createCall "Favorite Short Term Tracks") None w in
        let w2 := record c (createCall "Favorite Medium Term Tracks") None w1 in
        let w3 := record c (createCall "Favorite Long Term Tracks") None w2 in
        createPlaylist c (log w) (PrivateUser.ID user)
          "Favorite Short Term Tracks" "automated from top_tracks_cli"
          false false = (Some p1, nil_error)
        /\ createPlaylist c (log w1) (PrivateUser.ID user)
             "Favorite Medium Term Tracks" "automated from top_tracks_cli"
             false false = (Some p2, nil_error)
        /\ createPlaylist c (log w2) (PrivateUser.ID user)
             "Favorite Long Term Tracks" "automated from top_tracks_cli"
             false false = (Some p3, nil_error)
        /\ w' = w3
        /\ log w' = log w ++ [created "Favorite Short Term Tracks";
                              created "Favorite Medium Term Tracks";
                              created "Favorite Long Term Tracks"]
        /\ found = [FullPlaylist.SimplePlaylist p1;
                    FullPlaylist.SimplePlaylist p2;
                    FullPlaylist.SimplePlaylist p3]).
Proof.
  intros Hrun matching.
  unfold getAutomatedPlaylists in Hrun.
  change (filter matchesAutomated (SimplePlaylistPage.Playlists page))
    with matching in Hrun.
  destruct matching as [|v0 rest] eqn:Ematch.
  - split; [intros Hne; contradiction|]. intros _.
    cbn [List.length Nat.eqb] in Hrun. unfold playlistNames in Hrun.
    rewrite createPlaylists_cons in Hrun.
    change automatedDescription with "automated from top_tracks_cli" in Hrun.
    destruct (createPlaylist c (log w) (PrivateUser.ID user)
                "Favorite Short Term Tracks" "automated from top_tracks_cli"
                false false) as [[p1|] [e1|]] eqn:E1; try discriminate.
    rewrite createPlaylists_cons in Hrun.
    change automatedDescription with "automated from top_tracks_cli" in Hrun.
    destruct (createPlaylist c
                (log (record c (createCall "Favorite Short Term Tracks") None w))
                (PrivateUser.ID user)
                "Favorite Medium Term Tracks" "automated from top_tracks_cli"
                false false) as [[p2|] [e2|]] eqn:E2; try discriminate.
    rewrite createPlaylists_cons in Hrun.
    change automatedDescription with "automated from top_tracks_cli" in Hrun.
    match type of Hrun with
    | context [createPlaylist c ?h ?u ?n ?d ?a ?b] =>
        destruct (createPlaylist c h u n d a b) as [[p3|] [e3|]] eqn:E3;
          try discriminate
    end.
    cbn [createPlaylists] in Hrun. unfold ret in Hrun.
    injection Hrun as Hfound Hw.
    exists p1, p2, p3. cbn zeta.
    repeat split; try assumption; try (symmetry; assumption).
    subst w'. unfold record. cbn [log]. rewrite <- !app_assoc. reflexivity.
  - split; [|discriminate]. intros _.
    cbn [List.length Nat.eqb] in Hrun. unfold ret in Hrun.
    injection Hrun as Hfound Hw. split; symmetry; assumption.
Qed.

End Discovery.

(** A user without any playlist: the three playlists are created. *)
Lemma getAutomatedPlaylists_finds_or_creates_witness :
  let c := Samples.healthy [] [] [] in
  let page := {| spotify.SimplePlaylistPage.Playlists := [] |} in
  let w' :=
    record c (createCall Samples.me "Favorite Long Term Tracks") None
      (record c (createCall Samples.me "Favorite Medium Term Tracks") None
         (record c (createCall Samples.me "Favorite Short Term Tracks") None
            Samples.world0)) in
  let found :=
    map (fun n => spotify.SimplePlaylist.Build_t ("id of " ++ n)%string n false
                    "automated from top_tracks_cli" false)
      ["Favorite Short Term Tracks"; "Favorite Medium Term Tracks";
       "Favorite Long Term Tracks"] in
  getAutomatedPlaylists c Samples.me (Some page) Samples.world0
    = (Returns (found, nil_error), w')
  /\ log w' = [created Samples.me "Favorite Short Term Tracks";
               created Samples.me "Favorite Medium Term Tracks";
               created Samples.me "Favorite Long Term Tracks"].
Proof.
  intros c page w' found.
  assert (Hrun : getAutomatedPlaylists c Samples.me (Some page) Samples.world0
                 = (Returns (found, nil_error), w')) by reflexivity.
  split; [exact Hrun|].
  destruct (getAutomatedPlaylists_finds_or_creates c Samples.me page
              Samples.world0 w' found Hrun) as [_ Hcreate].
  destruct (Hcreate eq_refl) as (p1 & p2 & p3 & _ & _ & _ & _ & Hlog & _).
  exact Hlog.
Defined.

(** ** The default exponential policy *)

Module BackoffFacts.
Import backoff.

Lemma truncate_nonneg x : (0 <= x)%Q -> truncate x = Qfloor x.
Proof.
  intros H. unfold truncate.
  destruct (Qle_bool 0 x) eqn:E; [reflexivity|].
  apply Qle_bool_iff in H. congruence.
Qed.

Lemma truncate_lower (n : Z) x :
  (0 <= n)%Z -> (inject_Z n <= x)%Q -> (n <= truncate x)%Z.
Proof.
  intros Hn Hx.
  assert (H0 : (0 <= x)%Q).
  { apply Qle_trans with (inject_Z n); [|assumption].
    change 0%Q with (inject_Z 0). rewrite <- Zle_Qle. assumption. }
  rewrite truncate_nonneg by assumption.
  rewrite <- (Qfloor_Z n). apply Qfloor_resp_le. assumption.
Qed.

Lemma pause_lower random cur :
  (0 <= random)%Q -> (DefaultInitialInterval <= cur)%Z ->
  (minPause <= getRandomValueFromInterval DefaultRandomizationFactor random cur)%Z.
Proof.
  intros Hr Hcur. unfold getRandomValueFromInterval.
  apply truncate_lower; [vm_compute; discriminate|].
  unfold DefaultRandomizationFactor.
  assert (Hc : (inject_Z DefaultInitialInterval <= inject_Z cur)%Q)
    by (rewrite <- Zle_Qle; assumption).
  assert (Hm : (inject_Z minPause == (1 # 2) * inject_Z DefaultInitialInterval)%Q)
    by reflexivity.
  rewrite Hm.
  set (x := inject_Z cur) in *. set (i := inject_Z DefaultInitialInterval) in *.
  assert (Hi : (0 <= i)%Q) by (vm_compute; discriminate).
  assert (Hp : (0 <= random * (x + (1 # 2) * x - (x - (1 # 2) * x) + 1))%Q).
  { apply Qmult_le_0_compat; [assumption|]. lra. }
  lra.
Qed.

End BackoffFacts.

(** ** Running the monad *)

Lemma bind_Returns {A B} (m : M A) (f : A -> M B) w a w' :
  m w = (Returns a, w') -> bind m f w = f a w'.
Proof. intros H. unfold bind. rewrite H. reflexivity. Qed.

Lemma record_log c cl e w :
  log (record c cl e w)
  = log w ++ [ {| spotify.call := cl; spotify.failure := e |} ].
Proof. reflexivity. Qed.

Lemma record_now c cl e w : (now w <= now (record c cl e w))%Z.
Proof. unfold record. cbn [now]. lia. Qed.

Module RetryFacts.
Import backoff BackoffFacts.

Lemma Reset_run b w :
  exists b',
    Reset b w = (Returns b', w)
    /\ startTime b' = now w
    /\ (InitialInterval b = DefaultInitialInterval ->
        RandomizationFactor b = DefaultRandomizationFactor ->
        Multiplier b = DefaultMultiplier ->
        MaxInterval b = DefaultMaxInterval ->
        MaxElapsedTime b = DefaultMaxElapsedTime ->
        isDefault b').
Proof.
  eexists. split; [reflexivity|]. split; [reflexivity|].
  intros H1 H2 H3 H4 H5. constructor; cbn; try assumption.
  rewrite H1. apply Z.le_refl.
Qed.

Lemma NewExponentialBackOff_run w :
  exists b,
    NewExponentialBackOff w = (Returns b, w)
    /\ InitialInterval b = DefaultInitialInterval
    /\ RandomizationFactor b = DefaultRandomizationFactor
    /\ Multiplier b = DefaultMultiplier
    /\ MaxInterval b = DefaultMaxInterval
    /\ MaxElapsedTime b = DefaultMaxElapsedTime.
Proof. eexists. split; [reflexivity|]. repeat split. Qed.

Lemma incrementCurrentInterval_default b :
  isDefault b -> isDefault (incrementCurrentInterval b).
Proof.
  intros [H1 H2 H3 H4 H5 H6].
  constructor; cbn; try assumption.
  destruct (Qle_bool _ _).
  - rewrite H4. vm_compute. discriminate.
  - apply truncate_lower; [vm_compute; discriminate|].
    rewrite H3. unfold DefaultMultiplier.
    assert (Hc : (inject_Z DefaultInitialInterval <= inject_Z (currentInterval b))%Q)
      by (rewrite <- Zle_Qle; assumption).
    assert (Hi : (0 <= inject_Z DefaultInitialInterval)%Q)
      by (vm_compute; discriminate).
    change (inject_Z 500000000) with (inject_Z DefaultInitialInterval).
    lra.
Qed.

Lemma Float64_nonneg (x : Z) : (0 <= Qmake (x mod 2 ^ 53) (2 ^ 53))%Q.
Proof.
  unfold Qle. cbn [Qnum Qden]. rewrite Z.mul_1_r, Z.mul_0_l.
  apply Z.mod_pos_bound. reflexivity.
Qed.

(** [NextBackOff] of a default policy: [Stop] exactly when more than the
    maximum elapsed time has passed since [Reset]; otherwise a pause of at
    least [minPause], with no request sent and the clock untouched. *)
Lemma NextBackOff_cases b w :
  isDefault b ->
  ((DefaultMaxElapsedTime < now w - startTime b)%Z
   /\ NextBackOff b w = (Returns (Stop, b), w))
  \/ ((now w - startTime b <= DefaultMaxElapsedTime)%Z
      /\ exists d b' w',
           NextBackOff b w = (Returns (d, b'), w')
           /\ (minPause <= d)%Z
           /\ isDefault b'
           /\ startTime b' = startTime b
           /\ log w' = log w
           /\ now w' = now w).
Proof.
  intros Hb. pose proof Hb as [H1 H2 H3 H4 H5 H6].
  unfold NextBackOff, GetElapsedTime, bind, time_Now, ret. rewrite H5.
  change (DefaultMaxElapsedTime =? 0)%Z with false. cbn [negb andb].
  destruct (DefaultMaxElapsedTime <? now w - startTime b)%Z eqn:E.
  - left. apply Z.ltb_lt in E. split; [assumption | reflexivity].
  - right. apply Z.ltb_ge in E. split; [assumption|].
    unfold rand_Float64. do 3 eexists. split; [reflexivity|].
    repeat split.
    + rewrite H2. apply pause_lower; [apply Float64_nonneg | assumption].
    + apply (def_initial _ (incrementCurrentInterval_default b Hb)).
    + apply (def_factor _ (incrementCurrentInterval_default b Hb)).
    + apply (def_multiplier _ (incrementCurrentInterval_default b Hb)).
    + apply (def_maxInterval _ (incrementCurrentInterval_default b Hb)).
    + apply (def_maxElapsed _ (incrementCurrentInterval_default b Hb)).
    + apply (def_current _ (incrementCurrentInterval_default b Hb)).
Qed.

Section OneTrack.
Variable c : spotify.Client.
Variable playlistID : spotify.ID.
Variable track : spotify.FullTrack.t.

Let op : M error := addTrackOp c playlistID track.

(** One attempt: one request, logged with its error. *)
Lemma addTrackOp_run w :
  match snd (spotify.addTracks c (log w) playlistID
               [spotify.FullTrack.ID track]) with
  | Some err =>
      exists e,
        op w = (Returns (Some e),
                record c (addCall playlistID track) (Some err) w)
  | None =>
      op w = (Returns nil_error,
              record c (addCall playlistID track) None w)
  end.
Proof.
  unfold op, addTrackOp, bind, client.AddTracksToPlaylist, send.
  cbn [snd].
  destruct (snd (spotify.addTracks c (log w) playlistID
                   [spotify.FullTrack.ID track])).
  - eexists. unfold ret, Errorf, addCall. reflexivity.
  - unfold ret, addCall. reflexivity.
Qed.

Lemma retryLoop_spec fuel :
  forall b w,
    isDefault b ->
    exists o w' errs,
      retryLoop fuel op b w = (o, w')
      /\ (now w <= now w')%Z
      /\ match o with
         | Returns None =>
             log w' = log w ++ attempts playlistID track errs true
         | Returns (Some e) =>
             log w' = log w ++ attempts playlistID track errs false
             /\ errs <> []
             /\ (DefaultMaxElapsedTime < now w' - startTime b)%Z
         | Spins =>
             log w' = log w ++ attempts playlistID track errs false
             /\ (fuel = 0%nat
                 \/ ((Z.of_nat fuel - 1) * minPause
                     <= DefaultMaxElapsedTime - (now w - startTime b))%Z)
         | _ => False
         end.
Proof.
  induction fuel as [|fuel IH]; intros b w Hb.
  - exists Spins, w, []. split; [reflexivity|].
    split; [lia|]. split; [|left; reflexivity].
    unfold attempts. cbn [map app]. rewrite app_nil_r. reflexivity.
  - cbn [retryLoop].
    pose proof (addTrackOp_run w) as Hop.
    destruct (snd (spotify.addTracks c (log w) playlistID
                     [spotify.FullTrack.ID track])) as [err|].
    2:{ rewrite (bind_Returns _ _ _ _ _ Hop).
        exists (Returns None), (record c (addCall playlistID track) None w), [].
        split; [reflexivity|]. split; [apply record_now|]. reflexivity. }
    destruct Hop as [e Hop].
    rewrite (bind_Returns _ _ _ _ _ Hop).
    set (w1 := record c (addCall playlistID track) (Some err) w).
    assert (Hw1 : (now w <= now w1)%Z) by apply record_now.
    destruct (NextBackOff_cases b w1 Hb)
      as [[Hover Hnext] | [Hunder (d & b' & w2 & Hnext & Hd & Hb' & Hst & Hlog & Hnow)]].
    + rewrite (bind_Returns _ _ _ _ _ Hnext). cbn [fst snd].
      rewrite Z.eqb_refl.
      exists (Returns (Some e)), w1, [err].
      split; [reflexivity|]. split; [assumption|].
      split; [reflexivity|]. split; [discriminate | assumption].
    + rewrite (bind_Returns _ _ _ _ _ Hnext). cbn [fst snd].
      assert (Hq : (0 < minPause)%Z) by reflexivity.
      assert (Hns : (d =? Stop)%Z = false)
        by (apply Z.eqb_neq; unfold Stop; lia).
      rewrite Hns.
      unfold bind at 1. unfold time_Sleep at 1.
      match goal with
      | |- context [retryLoop fuel op b' ?x] => set (w3 := x)
      end.
      assert (Hlog3 : log w3 = log w1) by (subst w3; cbn [log]; assumption).
      assert (Hnow3 : now w3 = (now w1 + d)%Z)
        by (subst w3; cbn [now]; lia).
      destruct (IH b' w3 Hb') as (o & w' & errs & Hrun & Hmono & Hspec).
      exists o, w', (err :: errs).
      split; [exact Hrun|]. split; [lia|].
      assert (Hpre : forall ok,
                log w' = log w3 ++ attempts playlistID track errs ok ->
                log w' = log w ++ attempts playlistID track (err :: errs) ok).
      { intros ok ->. rewrite Hlog3. subst w1. rewrite record_log.
        rewrite <- app_assoc. reflexivity. }
      destruct o as [[e'|]| | |]; try contradiction.
      * destruct Hspec as (Hl & _ & Ht).
        split; [apply Hpre; assumption|]. split; [discriminate|].
        rewrite <- Hst. assumption.
      * apply Hpre. assumption.
      * destruct Hspec as (Hl & Hfuel).
        split; [apply Hpre; assumption|]. right.
        destruct Hfuel as [-> | Hfuel]; [lia|].
        rewrite Hst in Hfuel. lia.
Qed.

(** [Retry] with the default policy and [maxAttempts] attempts of fuel
    always returns: with [nil] after a successful request, or with the
    error once more than [DefaultMaxElapsedTime] has passed. *)
Lemma Retry_default_returns b w :
  InitialInterval b = DefaultInitialInterval ->
  RandomizationFactor b = DefaultRandomizationFactor ->
  Multiplier b = DefaultMultiplier ->
  MaxInterval b = DefaultMaxInterval ->
  MaxElapsedTime b = DefaultMaxElapsedTime ->
  exists err w' errs,
    Retry maxAttempts op b w = (Returns err, w')
    /\ (now w <= now w')%Z
    /\ match err with
       | None => log w' = log w ++ attempts playlistID track errs true
       | Some _ =>
           log w' = log w ++ attempts playlistID track errs false
           /\ errs <> []
           /\ (DefaultMaxElapsedTime < now w' - now w)%Z
       end.
Proof.
  intros H1 H2 H3 H4 H5. unfold Retry.
  destruct (Reset_run b w) as (b' & Hreset & Hstart & Hdef).
  specialize (Hdef H1 H2 H3 H4 H5).
  rewrite (bind_Returns _ _ _ _ _ Hreset).
  destruct (retryLoop_spec maxAttempts b' w Hdef)
    as (o & w' & errs & Hrun & Hmono & Hspec).
  destruct o as [[e|]| | |]; try contradiction.
  - exists (Some e), w', errs. rewrite Hstart in Hspec.
    split; [assumption|]. split; assumption.
  - exists None, w', errs. split; [assumption|]. split; assumption.
  - exfalso. destruct Hspec as (_ & [H0 | Hbound]).
    + discriminate.
    + rewrite Hstart, Z.sub_diag in Hbound.
      revert Hbound. vm_compute. intros Hc. apply Hc. reflexivity.
Qed.

End OneTrack.

Section Fill.
Variable c : spotify.Client.
Variable playlistID : spotify.ID.

(** The loop of [fillPlaylist] always returns.  Its requests come track by
    track in the order of the page; with no error every track was served,
    with an error the tracks before the failing one were served and the
    failing one was abandoned after more than [DefaultMaxElapsedTime]. *)
Lemma fillTracks_spec tracks :
  forall w,
    exists err w' groups,
      fillTracks c playlistID tracks w = (Returns err, w')
      /\ (now w <= now w')%Z
      /\ log w' = log w ++ List.concat groups
      /\ match err with
         | None => Forall2 (servedBy playlistID) tracks groups
         | Some _ =>
             exists served track rest gserved g,
               tracks = served ++ track :: rest
               /\ groups = gserved ++ [g]
               /\ Forall2 (servedBy playlistID) served gserved
               /\ abandoned playlistID track g
               /\ (DefaultMaxElapsedTime < now w' - now w)%Z
         end.
Proof.
  induction tracks as [|track tracks IH]; intros w.
  - exists None, w, []. cbn [fillTracks List.concat].
    split; [reflexivity|]. split; [lia|].
    split; [rewrite app_nil_r; reflexivity | constructor].
  - cbn [fillTracks].
    destruct (NewExponentialBackOff_run w) as (b & Hnew & H1 & H2 & H3 & H4 & H5).
    rewrite (bind_Returns _ _ _ _ _ Hnew).
    destruct (Retry_default_returns c playlistID track b w H1 H2 H3 H4 H5)
      as (err & w1 & errs & Hretry & Hmono & Hspec).
    rewrite (bind_Returns _ _ _ _ _ Hretry).
    destruct err as [e|].
    + destruct Hspec as (Hlog & Hne & Hlate).
      eexists (Some _), w1, [attempts playlistID track errs false].
      split; [reflexivity|]. split; [assumption|].
      split; [cbn [List.concat]; rewrite app_nil_r; assumption|].
      exists [], track, tracks, [], (attempts playlistID track errs false).
      repeat split; try assumption; try constructor.
      exists errs. split; [assumption | reflexivity].
    + destruct (IH w1) as (err & w' & groups & Hrun & Hmono' & Hlog' & Hrest).
      exists err, w', (attempts playlistID track errs true :: groups).
      split; [exact Hrun|]. split; [lia|].
      split.
      { rewrite Hlog', Hspec. cbn [List.concat]. rewrite <- app_assoc. reflexivity. }
      destruct err as [e|].
      * destruct Hrest as (served & t & rest & gserved & g
                           & Ht & Hg & Hserved & Hab & Hlate).
        exists (track :: served), t, rest,
          (attempts playlistID track errs true :: gserved), g.
        split; [rewrite Ht; reflexivity|].
        split; [rewrite Hg; reflexivity|].
        split; [constructor; [exists errs; reflexivity | assumption]|].
        split; [assumption | lia].
      * constructor; [exists errs; reflexivity | assumption].
Qed.

Lemma succeeded_attempts track errs :
  filter succeeded (attempts playlistID track errs true)
  = [succeededAdd playlistID track].
Proof.
  unfold attempts. rewrite filter_app.
  replace (filter succeeded (map (failedAdd playlistID track) errs))
    with (@nil spotify.Event).
  - reflexivity.
  - induction errs as [|e errs IH]; [reflexivity | exact IH].
Qed.

Lemma succeeded_served tracks :
  forall groups,
    Forall2 (servedBy playlistID) tracks groups ->
    filter succeeded (List.concat groups) = map (succeededAdd playlistID) tracks.
Proof.
  intros groups H. induction H as [|track g tracks groups [errs ->] _ IH].
  - reflexivity.
  - cbn [List.concat map]. rewrite filter_app, succeeded_attempts, IH. reflexivity.
Qed.

Lemma calls_attempts track errs ok ev :
  In ev (attempts playlistID track errs ok) ->
  spotify.call ev = addCall playlistID track.
Proof.
  unfold attempts. rewrite in_app_iff, in_map_iff.
  intros [(e & <- & _) | H]; [reflexivity|].
  destruct ok; [|contradiction].
  destruct H as [<- | []]. reflexivity.
Qed.

End Fill.

End RetryFacts.

(** ** The fill operation *)

Section FillPlaylist.
Import spotify.
Variable c : Client.
Variable playlistID : ID.

(** C1, as amended.  In a run of [fillPlaylist] that returns no error, the
    requests sent are, for each track of the page in the page's order, the
    add-tracks request carrying exactly that track's ID and the target
    playlist's ID, sent again after each failure and until it succeeds:
    exactly one successful request per track, and one more per failed
    attempt. *)
Theorem fillPlaylist_adds_each_track_until_success
  (page : FullTrackPage.t) (w w' : World) :
  fillPlaylist c playlistID (Some page) w = (Returns nil_error, w') ->
  exists groups,
    log w' = log w ++ List.concat groups
    /\ Forall2 (servedBy playlistID) (FullTrackPage.Tracks page) groups
    /\ filter succeeded (List.concat groups)
       = map (succeededAdd playlistID) (FullTrackPage.Tracks page).
Proof.
  intros Hrun. cbn [fillPlaylist] in Hrun.
  destruct (RetryFacts.fillTracks_spec c playlistID (FullTrackPage.Tracks page) w)
    as (err & w1 & groups & Hrun' & _ & Hlog & Hspec).
  rewrite Hrun in Hrun'. injection Hrun' as <- <-.
  exists groups. split; [assumption|]. split; [assumption|].
  apply RetryFacts.succeeded_served. assumption.
Qed.


End FillPlaylist.

(** The first add-tracks request fails, the second succeeds: two requests
    are sent for the only track of the page. *)
Lemma fillPlaylist_not_one_request_per_track :
  let c := Samples.withAddTracks (Samples.addFailsFirst 1)
             (Samples.healthy [] [] []) in
  let page := {| spotify.FullTrackPage.Tracks := [Samples.track "t1"] |} in
  exists w',
    fillPlaylist c "p1" (Some page) Samples.world0 = (Returns nil_error, w')
    /\ map spotify.call (log w')
       = [spotify.AddTracksToPlaylist "p1" ["t1"];
          spotify.AddTracksToPlaylist "p1" ["t1"]]
    /\ map spotify.call (log w')
       <> map (fun t => spotify.AddTracksToPlaylist "p1" [spotify.FullTrack.ID t])
            (spotify.FullTrackPage.Tracks page).
Proof.
  intros c page. eexists. split; [vm_compute; reflexivity|].
  split; [vm_compute; reflexivity | vm_compute; discriminate].
Qed.

(** A page of two tracks, the first request of the run failing. *)
Lemma fillPlaylist_adds_each_track_until_success_witness :
  let c := Samples.withAddTracks (Samples.addFailsFirst 1)
             (Samples.healthy [] [] []) in
  let page := {| spotify.FullTrackPage.Tracks :=
                   [Samples.track "t1"; Samples.track "t2"] |} in
  exists w' groups,
    fillPlaylist c "p1" (Some page) Samples.world0 = (Returns nil_error, w')
    /\ log w' = List.concat groups
    /\ filter succeeded (List.concat groups)
       = [succeededAdd "p1" (Samples.track "t1");
          succeededAdd "p1" (Samples.track "t2")].
Proof.
  intros c page.
  assert (Hrun : exists w',
             fillPlaylist c "p1" (Some page) Samples.world0
             = (Returns nil_error, w'))
    by (eexists; vm_compute; reflexivity).
  destruct Hrun as [w' Hrun].
  destruct (fillPlaylist_adds_each_track_until_success c "p1" page
              Samples.world0 w' Hrun) as (groups & Hlog & _ & Hok).
  exists w', groups. split; [exact Hrun|]. split; [exact Hlog | exact Hok].
Defined.



(** ** The fetch-then-fill operation *)

Section FetchAndFill.
Import spotify.
Variable c : Client.

(** C9. If the top-tracks fetch returns a nil page without an error,
    [getTopTracks] returns (nil, nil), [getTopTracksAndFill] hands the nil
    page to [fillPlaylist], and [fillPlaylist] dereferences it: the run ends
    in a nil-pointer panic. *)
Theorem nil_page_panics_in_fillPlaylist (p : playlistConfig) (w : World) :
  topTracks c (log w) (duration p) 50 = (None, nil_error) ->
  exists w1,
    getTopTracks p c w = (Returns (None, nil_error), w1)
    /\ fillPlaylist c (id p) None w1 = (Panics nil_dereference, w1)
    /\ getTopTracksAndFill c p w = (Panics nil_dereference, w1).
Proof.
  intros Hnil.
  assert (Hget : exists w1,
             getTopTracks p c w = (Returns (None, nil_error), w1)).
  { unfold getTopTracks, bind, client.CurrentUsersTopTracks, send.
    cbn [fst snd]. rewrite Hnil. cbn [fst snd].
    eexists. reflexivity. }
  destruct Hget as [w1 Hget]. exists w1.
  split; [exact Hget|]. split; [reflexivity|].
  unfold getTopTracksAndFill.
  rewrite (bind_Returns _ _ _ _ _ Hget). reflexivity.
Qed.

Lemma getTopTracks_run (p : playlistConfig) (w : World) :
  let w0 e := record c (CurrentUsersTopTracks (duration p) 50) e w in
  match topTracks c (log w) (duration p) 50 with
  | (_, Some err) =>
      exists e, getTopTracks p c w = (Returns (None, Some e), w0 (Some err))
  | (Some page, None) =>
      getTopTracks p c w = (Returns (Some page, nil_error), w0 None)
  | (None, None) =>
      exists w1, getTopTracks p c w = (Returns (None, nil_error), w1)
                 /\ log w1 = log (w0 None)
  end.
Proof.
  unfold getTopTracks, bind, client.CurrentUsersTopTracks, send.
  cbv zeta. cbn [fst snd].
  destruct (topTracks c (log w) (duration p) 50) as [[page|] [err|]];
    cbn [fst snd].
  - eexists. unfold ret, Errorf. reflexivity.
  - reflexivity.
  - eexists. unfold ret, Errorf. reflexivity.
  - eexists. split; reflexivity.
Qed.


End FetchAndFill.

(** A service whose top-tracks answer is a nil page and no error. *)
Lemma nil_page_panics_in_fillPlaylist_witness :
  let c := Samples.withTopTracks (fun _ _ _ => (None, nil_error))
             (Samples.healthy [] [] []) in
  let p := configOf (Samples.playlist "p1" "Favorite Short Term Tracks")
             spotify.ShortTermRange Samples.me in
  exists w1,
    getTopTracksAndFill c p Samples.world0 = (Panics nil_dereference, w1)
    /\ map spotify.call (log w1)
       = [spotify.CurrentUsersTopTracks "short_term" 50].
Proof.
  intros c p.
  destruct (nil_page_panics_in_fillPlaylist c p Samples.world0 eq_refl)
    as (w1 & Hget & _ & Hrun).
  exists w1. split; [exact Hrun|].
  unfold getTopTracks, bind, client.CurrentUsersTopTracks, send in Hget.
  cbn in Hget. injection Hget as <-. reflexivity.
Defined.

(** ** The three configurations of fill mode *)

Section ConfigFacts.
Import spotify.
Variable user : PrivateUser.t.

Lemma anchored_eqb lits s :
  Regexp.MatchString (anchoredLits lits) s = String.eqb s lits.
Proof.
  destruct (String.eqb_spec s lits) as [->|Hne].
  - apply MatchString_anchoredLits. reflexivity.
  - destruct (Regexp.MatchString (anchoredLits lits) s) eqn:E; [|reflexivity].
    apply MatchString_anchoredLits in E. contradiction.
Qed.

Lemma assignConfig_short cs v :
  shortTermConfig (assignConfig user cs v)
  = if String.eqb (SimplePlaylist.Name v) shortTermName
    then configOf v ShortTermRange user else shortTermConfig cs.
Proof.
  unfold assignConfig.
  rewrite shortTermRe_shape, medTermRe_shape, longTermRe_shape, !anchored_eqb.
  destruct (String.eqb _ shortTermName), (String.eqb _ medTermName),
    (String.eqb _ longTermName); reflexivity.
Qed.

Lemma assignConfig_med cs v :
  medTermConfig (assignConfig user cs v)
  = if String.eqb (SimplePlaylist.Name v) medTermName
    then configOf v MediumTermRange user else medTermConfig cs.
Proof.
  unfold assignConfig.
  rewrite shortTermRe_shape, medTermRe_shape, longTermRe_shape, !anchored_eqb.
  destruct (String.eqb _ shortTermName), (String.eqb _ medTermName),
    (String.eqb _ longTermName); reflexivity.
Qed.

Lemma assignConfig_long cs v :
  longTermConfig (assignConfig user cs v)
  = if String.eqb (SimplePlaylist.Name v) longTermName
    then configOf v LongTermRange user else longTermConfig cs.
Proof.
  unfold assignConfig.
  rewrite shortTermRe_shape, medTermRe_shape, longTermRe_shape, !anchored_eqb.
  destruct (String.eqb _ shortTermName), (String.eqb _ medTermName),
    (String.eqb _ longTermName); reflexivity.
Qed.

(** After the loop, a configuration is the one of the last playlist with
    its name, or what it was before the loop. *)
Lemma fold_assignConfig (proj : Configs -> playlistConfig) (n : string)
  (d : Range) :
  (forall cs v,
      proj (assignConfig user cs v)
      = if String.eqb (SimplePlaylist.Name v) n
        then configOf v d user else proj cs) ->
  forall l cs,
    proj (fold_left (assignConfig user) l cs)
    = match lastNamed n l with
      | Some v => configOf v d user
      | None => proj cs
      end.
Proof.
  intros Hstep. induction l as [|v l IH]; intros cs.
  - reflexivity.
  - cbn [fold_left lastNamed]. rewrite IH.
    destruct (lastNamed n l); [reflexivity|].
    rewrite Hstep. destruct (String.eqb _ n); reflexivity.
Qed.

Lemma lastNamed_Some n l u :
  lastNamed n l = Some u -> In u l /\ SimplePlaylist.Name u = n.
Proof.
  induction l as [|v l IH]; [discriminate|].
  cbn [lastNamed]. destruct (lastNamed n l) as [u'|].
  - intros [= ->]. destruct (IH eq_refl). split; [right|]; assumption.
  - destruct (String.eqb_spec (SimplePlaylist.Name v) n); [|discriminate].
    intros [= ->]. split; [left; reflexivity | assumption].
Qed.

Lemma lastNamed_None n l :
  lastNamed n l = None ->
  forall v, In v l -> SimplePlaylist.Name v <> n.
Proof.
  induction l as [|v l IH]; [intros _ v []|].
  cbn [lastNamed]. destruct (lastNamed n l) as [u'|]; [discriminate|].
  destruct (String.eqb_spec (SimplePlaylist.Name v) n); [discriminate|].
  intros _ v' [<- | Hin]; [assumption | apply IH; [reflexivity | assumption]].
Qed.


Lemma main_configs_short l :
  shortTermConfig (main_configs user l)
  = match lastNamed shortTermName l with
    | Some v => configOf v ShortTermRange user
    | None => zeroConfig
    end.
Proof.
  unfold main_configs.
  rewrite (fold_assignConfig shortTermConfig shortTermName ShortTermRange
             assignConfig_short).
  reflexivity.
Qed.

Lemma main_configs_med l :
  medTermConfig (main_configs user l)
  = match lastNamed medTermName l with
    | Some v => configOf v MediumTermRange user
    | None => zeroConfig
    end.
Proof.
  unfold main_configs.
  rewrite (fold_assignConfig medTermConfig medTermName MediumTermRange
             assignConfig_med).
  reflexivity.
Qed.

Lemma main_configs_long l :
  longTermConfig (main_configs user l)
  = match lastNamed longTermName l with
    | Some v => configOf v LongTermRange user
    | None => zeroConfig
    end.
Proof.
  unfold main_configs.
  rewrite (fold_assignConfig longTermConfig longTermName LongTermRange
             assignConfig_long).
  reflexivity.
Qed.


End ConfigFacts.


(** ** Discovery with some playlists missing *)

Section Partial.
Import spotify.
Variable c : Client.
Variable user : PrivateUser.t.

Lemma getAutomatedPlaylists_found page w :
  filter matchesAutomated (SimplePlaylistPage.Playlists page) <> [] ->
  getAutomatedPlaylists c user (Some page) w
  = (Returns (filter matchesAutomated (SimplePlaylistPage.Playlists page),
              nil_error), w).
Proof.
  intros Hne. unfold getAutomatedPlaylists.
  destruct (filter matchesAutomated (SimplePlaylistPage.Playlists page));
    [contradiction | reflexivity].
Qed.

Lemma getCurrentPlaylists_run page w :
  usersPlaylists c (log w) 50 = (Some page, nil_error) ->
  getCurrentPlaylists c w
  = (Returns (Some page, nil_error), record c (CurrentUsersPlaylists 50) None w).
Proof.
  intros H. unfold getCurrentPlaylists, bind, client.CurrentUsersPlaylists, send.
  cbv zeta. rewrite H. reflexivity.
Qed.

Lemma main_automatedPlaylists_run page w eol :
  usersPlaylists c (log w) 50 = (Some page, nil_error) ->
  filter matchesAutomated (SimplePlaylistPage.Playlists page) <> [] ->
  main_automatedPlaylists c user eol w
  = (Returns (filter matchesAutomated (SimplePlaylistPage.Playlists page)),
     record c (CurrentUsersPlaylists 50) None w).
Proof.
  intros Hpl Hne. unfold main_automatedPlaylists.
  rewrite (bind_Returns _ _ _ _ _ (getCurrentPlaylists_run page w Hpl)).
  cbn [fst snd]. unfold nil_error at 1. cbv iota.
  rewrite (bind_Returns _ _ _ _ _ (getAutomatedPlaylists_found page _ Hne)).
  reflexivity.
Qed.

Lemma main_fill_forks page w start :
  usersPlaylists c (log w) 50 = (Some page, nil_error) ->
  filter matchesAutomated (SimplePlaylistPage.Playlists page) <> [] ->
  main fillOnly c user start w
  = (Returns (Fork (main_configs user
                      (filter matchesAutomated
                         (SimplePlaylistPage.Playlists page)))),
     record c (CurrentUsersPlaylists 50) None w).
Proof.
  intros Hpl Hne. unfold main, fillOnly.
  cbn [playlistList playlistPurgeFavTracks playlistFill].
  unfold bind at 1. unfold ret at 1. unfold bind at 1. unfold ret at 1.
  rewrite (bind_Returns _ _ _ _ _ (main_automatedPlaylists_run page w "" Hpl Hne)).
  reflexivity.
Qed.

End Partial.

Lemma started_reachable cs : Tasks.reachable cs (Tasks.started cs).
Proof.
  pose (p1 := {| Tasks.pc := Tasks.AtGo 0; Tasks.wg := 3; Tasks.tasks := [];
                 Tasks.output := []; Tasks.exited := None |}).
  pose (t := fun cfg => {| Tasks.config := cfg; Tasks.state := Tasks.Running |}).
  pose (p2 := {| Tasks.pc := Tasks.AtGo 1; Tasks.wg := 3;
                 Tasks.tasks := [t (shortTermConfig cs)];
                 Tasks.output := []; Tasks.exited := None |}).
  pose (p3 := {| Tasks.pc := Tasks.AtGo 2; Tasks.wg := 3;
                 Tasks.tasks := [t (shortTermConfig cs); t (medTermConfig cs)];
                 Tasks.output := []; Tasks.exited := None |}).
  assert (H1 : Tasks.reachable cs p1).
  { apply Tasks.reach_step with Tasks.init; [constructor|].
    exact (Tasks.step_add cs Tasks.init eq_refl eq_refl). }
  assert (H2 : Tasks.reachable cs p2).
  { apply Tasks.reach_step with p1; [assumption|].
    exact (Tasks.step_go cs p1 0 (shortTermConfig cs) eq_refl eq_refl eq_refl). }
  assert (H3 : Tasks.reachable cs p3).
  { apply Tasks.reach_step with p2; [assumption|].
    exact (Tasks.step_go cs p2 1 (medTermConfig cs) eq_refl eq_refl eq_refl). }
  apply Tasks.reach_step with p3; [assumption|].
  exact (Tasks.step_go cs p3 2 (longTermConfig cs) eq_refl eq_refl eq_refl).
Qed.

Section Missing.
Import spotify.
Variable c : Client.
Variable user : PrivateUser.t.

Lemma lastNamed_absent n page :
  (forall v, In v (SimplePlaylistPage.Playlists page) ->
             SimplePlaylist.Name v <> n) ->
  lastNamed n (filter matchesAutomated (SimplePlaylistPage.Playlists page))
  = None.
Proof.
  intros Habsent.
  destruct (lastNamed n _) as [u|] eqn:E; [|reflexivity].
  apply lastNamed_Some in E. destruct E as [Hin Hname].
  apply filter_In in Hin. destruct Hin as [Hin _].
  exfalso. exact (Habsent u Hin Hname).
Qed.

(** C10. If at least one of the expected playlists exists but some are
    missing, [getAutomatedPlaylists] returns only the matching ones and
    creates none (it sends nothing), so in fill mode the configuration of
    each missing time range keeps its zero value (empty playlist ID, empty
    time range), and all three configurations are still handed to the three
    fetch-then-fill tasks. *)
Theorem missing_playlists_leave_zero_configs
  (page : SimplePlaylistPage.t) (w : World) (start : Z) :
  let matching :=
    filter matchesAutomated (SimplePlaylistPage.Playlists page) in
  let cs := main_configs user matching in
  let absent n :=
    forall v, In v (SimplePlaylistPage.Playlists page) ->
              SimplePlaylist.Name v <> n in
  matching <> [] ->
  getAutomatedPlaylists c user (Some page) w
    = (Returns (matching, nil_error), w)
  /\ (absent "Favorite Short Term Tracks" -> shortTermConfig cs = zeroConfig)
  /\ (absent "Favorite Medium Term Tracks" -> medTermConfig cs = zeroConfig)
  /\ (absent "Favorite Long Term Tracks" -> longTermConfig cs = zeroConfig)
  /\ id zeroConfig = "" /\ duration zeroConfig = ""
  /\ (usersPlaylists c (log w) 50 = (Some page, nil_error) ->
      main fillOnly c user start w
      = (Returns (Fork cs), record c (CurrentUsersPlaylists 50) None w))
  /\ Tasks.reachable cs (Tasks.started cs)
  /\ map Tasks.config (Tasks.tasks (Tasks.started cs))
     = [shortTermConfig cs; medTermConfig cs; longTermConfig cs]
  /\ Forall (fun t => Tasks.state t = Tasks.Running)
       (Tasks.tasks (Tasks.started cs)).
Proof.
  intros matching cs absent Hne.
  split; [apply getAutomatedPlaylists_found; assumption|].
  split; [intros Ha; unfold cs; rewrite main_configs_short;
          unfold matching; rewrite (lastNamed_absent shortTermName page Ha);
          reflexivity|].
  split; [intros Ha; unfold cs; rewrite main_configs_med;
          unfold matching; rewrite (lastNamed_absent medTermName page Ha);
          reflexivity|].
  split; [intros Ha; unfold cs; rewrite main_configs_long;
          unfold matching; rewrite (lastNamed_absent longTermName page Ha);
          reflexivity|].
  split; [reflexivity|]. split; [reflexivity|].
  split; [intros Hpl; apply main_fill_forks; assumption|].
  split; [apply started_reachable|].
  split; [reflexivity|].
  repeat constructor.
Qed.

End Missing.

(** Only the short-term playlist exists. *)
Lemma missing_playlists_leave_zero_configs_witness :
  let page :=
    {| spotify.SimplePlaylistPage.Playlists :=
         [Samples.playlist "x" "Road trip";
          Samples.playlist "p1" "Favorite Short Term Tracks"] |} in
  let c := Samples.healthy (spotify.SimplePlaylistPage.Playlists page) [] [] in
  let cs := main_configs Samples.me
              [Samples.playlist "p1" "Favorite Short Term Tracks"] in
  getAutomatedPlaylists c Samples.me (Some page) Samples.world0
    = (Returns ([Samples.playlist "p1" "Favorite Short Term Tracks"],
                nil_error), Samples.world0)
  /\ id (shortTermConfig cs) = "p1"
  /\ medTermConfig cs = zeroConfig
  /\ longTermConfig cs = zeroConfig
  /\ Tasks.reachable cs (Tasks.started cs).
Proof.
  intros page c cs.
  assert (Hne : filter matchesAutomated
                  (spotify.SimplePlaylistPage.Playlists page) <> [])
    by (vm_compute; discriminate).
  destruct (missing_playlists_leave_zero_configs c Samples.me page
              Samples.world0 0%Z Hne)
    as (Hget & _ & Hmed & Hlong & _ & _ & _ & Hreach & _).
  split; [exact Hget|]. split; [reflexivity|].
  split.
  { apply Hmed. intros v [<- | [<- | []]]; discriminate. }
  split.
  { apply Hlong. intros v [<- | [<- | []]]; discriminate. }
  exact Hreach.
Defined.

(** ** Purge mode with a failing remove request *)

(** C5, the run that breaks it.  The user has the short-term playlist with
    one track on it, and the remove-tracks request fails.  [purgeTracks]
    drops that error and returns nil; [main] prints nothing about it, prints
    its last line and ends normally instead of reporting the error and
    exiting. *)
Lemma purge_swallows_failed_remove :
  let c := Samples.withRemoveTracks Samples.alwaysFails
             (Samples.healthy
                [Samples.playlist "p1" "Favorite Short Term Tracks"] []
                [Samples.item "a"]) in
  let v := Samples.playlist "p1" "Favorite Short Term Tracks" in
  (exists w1,
      purgeTracks c v Samples.world0 = (Returns nil_error, w1)
      /\ log w1
         = [ {| spotify.call := spotify.GetPlaylistItems "p1";
                spotify.failure := None |};
             {| spotify.call := spotify.RemoveTracksFromPlaylist "p1" ["a"];
                spotify.failure := Some "503 Service Unavailable" |} ])
  /\ exists w',
      main purgeOnly c Samples.me 0 Samples.world0 = (Returns Finished, w')
      /\ map format (stdout w')
         = [("Purging tracks from the automated playlists" ++ newline)%string;
            ("purging tracks on playlist %v" ++ newline)%string;
            ("Done! Completed in %v" ++ newline)%string].
Proof.
  intros c v. split.
  - eexists. split; vm_compute; reflexivity.
  - eexists. split; vm_compute; reflexivity.
Qed.

(** The sibling path: when listing the playlists fails, [main] reports the
    error and exits with status 1. *)
Example purge_exits_on_failed_listing :
  let c := Samples.withUsersPlaylists
             (fun _ _ => (None, Some "503 Service Unavailable"))
             (Samples.healthy [] [] []) in
  exists w',
    main purgeOnly c Samples.me 0 Samples.world0 = (Exits 1, w')
    /\ map format (stdout w')
       = [("Purging tracks from the automated playlists" ++ newline)%string;
          ("unable to get user playlists: %v" ++ newline)%string].
Proof. intros c. eexists. split; vm_compute; reflexivity. Qed.

(** ** The three fill tasks *)

Module TaskFacts.
Import Tasks.

Lemma middle (l1 : list Task) t l2 :
  nth_error (l1 ++ t :: l2) (List.length l1) = Some t
  /\ firstn (List.length l1) (l1 ++ t :: l2) = l1
  /\ skipn (S (List.length l1)) (l1 ++ t :: l2) = l2.
Proof.
  induction l1 as [|a l1 (IH1 & IH2 & IH3)]; cbn.
  - repeat split.
  - rewrite IH2. repeat split; assumption.
Qed.

(** A task found at index [i], and what [setTask] does to the list. *)
Lemma stateOf_split i l s :
  stateOf i l = Some s ->
  exists l1 t l2,
    l = l1 ++ t :: l2 /\ state t = s
    /\ forall st, setTask i st l
                  = l1 ++ {| config := config t; state := st |} :: l2.
Proof.
  unfold stateOf. destruct (nth_error l i) as [t|] eqn:E; [|discriminate].
  intros [= Hs]. apply nth_error_split in E.
  destruct E as (l1 & l2 & -> & <-).
  exists l1, t, l2. split; [reflexivity|]. split; [assumption|].
  intros st. unfold setTask.
  destruct (middle l1 t l2) as (-> & -> & ->). reflexivity.
Qed.

Lemma countJoined_app l1 l2 :
  countJoined (l1 ++ l2) = (countJoined l1 + countJoined l2)%nat.
Proof. unfold countJoined. rewrite filter_app, length_app. reflexivity. Qed.


Section Steps.
Variable cs : Configs.


(** A step of a task changes neither the number of tasks nor their
    configurations. *)
Lemma setTask_shape i st l :
  List.length (setTask i st l) = List.length l
  /\ map config (setTask i st l) = map config l.
Proof.
  unfold setTask. destruct (nth_error l i) as [t|] eqn:E; [|split; reflexivity].
  apply nth_error_split in E. destruct E as (l1 & l2 & -> & <-).
  destruct (middle l1 t l2) as (_ & -> & ->).
  rewrite !length_app, !map_app. split; reflexivity.
Qed.

Lemma countJoined_one t : countJoined [t] = if joined t then 1%nat else 0%nat.
Proof. unfold countJoined. cbn [filter]. destruct (joined t); reflexivity. Qed.

Lemma joined_state t s : state t = s -> joined t = negb
  match s with Running => true | _ => false end.
Proof. intros <-. unfold joined. destruct (state t); reflexivity. Qed.

Lemma setTask_joins i st l :
  stateOf i l = Some Running -> st <> Running ->
  countJoined (setTask i st l) = S (countJoined l).
Proof.
  intros H Hst.
  destruct (stateOf_split i l Running H) as (l1 & t & l2 & -> & Ht & Hset).
  rewrite Hset.
  change (l1 ++ t :: l2) with (l1 ++ [t] ++ l2).
  change ({| config := config t; state := st |} :: l2)
    with ([ {| config := config t; state := st |} ] ++ l2).
  rewrite !countJoined_app, !countJoined_one.
  rewrite (joined_state t Running Ht).
  rewrite (joined_state {| config := config t; state := st |} st eq_refl).
  destruct st; try contradiction; cbn [negb]; lia.
Qed.


Lemma setTask_count_same i s st l :
  stateOf i l = Some s -> s <> Running -> st <> Running ->
  countJoined (setTask i st l) = countJoined l.
Proof.
  intros H Hs Hst.
  destruct (stateOf_split i l s H) as (l1 & t & l2 & -> & Ht & Hset).
  rewrite Hset.
  change (l1 ++ t :: l2) with (l1 ++ [t] ++ l2).
  change ({| config := config t; state := st |} :: l2)
    with ([ {| config := config t; state := st |} ] ++ l2).
  rewrite !countJoined_app, !countJoined_one.
  rewrite (joined_state t s Ht).
  rewrite (joined_state {| config := config t; state := st |} st eq_refl).
  destruct s, st; try contradiction; reflexivity.
Qed.








End Steps.

End TaskFacts.

Section Join.
Import Tasks TaskFacts.
Variable cs : Configs.



End Join.

(** One more step of a run: [H] says that a state is reachable, [step]
    builds the step to take from that state. *)
Ltac advance H step :=
  match type of H with
  | Tasks.reachable ?c ?p =>
      let H' := fresh "Hnext" in
      pose proof (Tasks.reach_step c p _ H ltac:(step p)) as H';
      clear H; rename H' into H
  end.


(** * Part III: more properties of main.go *)

(** ** The four patterns together (lines 54-58) *)

Section PatternUnion.
Import Regexp RegexpFacts.

Let chars := list_ascii_of_string.

Lemma stripPrefix_append a :
  forall b s,
    stripPrefix (a ++ b) s
    = match stripPrefix a s with
      | Some s1 => stripPrefix b s1
      | None => None
      end.
Proof.
  induction a as [|c a IH]; intros b s; cbn [app stripPrefix].
  - reflexivity.
  - destruct s as [|c' s]; [reflexivity|].
    destruct (Ascii.eqb c' c); [apply IH | reflexivity].
Qed.

Lemma endsWith_append a b s :
  endsWith (a ++ b) s
  = match stripPrefix a s with
    | Some s1 => endsWith b s1
    | None => false
    end.
Proof.
  unfold endsWith. rewrite stripPrefix_append.
  destruct (stripPrefix a s); reflexivity.
Qed.

Lemma MatchString_anchored_endsWith lits s :
  MatchString (anchoredLits lits) s = endsWith (chars lits) (chars s).
Proof.
  destruct (endsWith (chars lits) (chars s)) eqn:E.
  - apply endsWith_true in E. apply list_ascii_of_string_inj in E.
    apply MatchString_anchoredLits. assumption.
  - destruct (MatchString (anchoredLits lits) s) eqn:M; [|reflexivity].
    apply MatchString_anchoredLits in M. subst s.
    assert (H : endsWith (chars lits) (chars lits) = true)
      by (apply endsWith_true; reflexivity).
    congruence.
Qed.

(** X1.  The discovery pattern accepts a name exactly when one of the three
    per-range patterns does, and no name is accepted by two of them: every
    playlist that discovery finds belongs to one time range and one only. *)
Theorem plMatch_is_disjoint_union_of_range_patterns (s : string) :
  MatchString plMatch s
  = (MatchString shortTermRe s || MatchString medTermRe s
     || MatchString longTermRe s)%bool
  /\ (MatchString shortTermRe s && MatchString medTermRe s)%bool = false
  /\ (MatchString shortTermRe s && MatchString longTermRe s)%bool = false
  /\ (MatchString medTermRe s && MatchString longTermRe s)%bool = false.
Proof.
  split.
  - unfold MatchString at 1.
    rewrite (search_anchored plMatch _ plMatch_anchored), plMatch_at_start.
    rewrite shortTermRe_shape, medTermRe_shape, longTermRe_shape.
    rewrite !MatchString_anchored_endsWith.
    change (chars shortTermName)
      with (chars "Favorite " ++ chars "Short" ++ chars " Term Tracks").
    change (chars medTermName)
      with (chars "Favorite " ++ chars "Medium" ++ chars " Term Tracks").
    change (chars longTermName)
      with (chars "Favorite " ++ chars "Long" ++ chars " Term Tracks").
    rewrite !endsWith_append. fold chars.
    destruct (stripPrefix (chars "Favorite ") (chars s)) as [s1|];
      [|reflexivity].
    rewrite !endsWith_append. rewrite orb_assoc. reflexivity.
  - rewrite shortTermRe_shape, medTermRe_shape, longTermRe_shape.
    rewrite !anchored_eqb.
    repeat split.
    + destruct (String.eqb_spec s shortTermName) as [->|]; reflexivity.
    + destruct (String.eqb_spec s shortTermName) as [->|]; reflexivity.
    + destruct (String.eqb_spec s medTermName) as [->|]; reflexivity.
Qed.

End PatternUnion.

(** ** Fetching the top tracks (lines 77-87 and 165-175) *)

Lemma append_empty (s : string) : (s ++ "")%string = s.
Proof. induction s as [|a s IH]; cbn; [reflexivity | rewrite IH; reflexivity]. Qed.

Section Fetch.
Variable c : spotify.Client.
Variable p : playlistConfig.

Let fetch : spotify.Call := spotify.CurrentUsersTopTracks (duration p) 50.

(** X2.  [getTopTracks] always returns, after exactly one request: the top
    tracks of the configuration's time range, 50 at most.  It hands the
    page through unchanged, turns an error into a nil page with the error
    prefixed, and prints one line only for a nil page without error. *)
Theorem getTopTracks_sends_one_request (w : World) :
  exists r w',
    getTopTracks p c w = (Returns r, w')
    /\ log w' = log w
                ++ [ {| spotify.call := fetch;
                        spotify.failure :=
                          snd (spotify.topTracks c (log w) (duration p) 50) |} ]
    /\ match spotify.topTracks c (log w) (duration p) 50 with
       | (_, Some e) =>
           r = (None,
                Some ("unable to retrieve users top tracks: " ++ e)%string)
           /\ stdout w' = stdout w
       | (Some page, None) =>
           r = (Some page, nil_error) /\ stdout w' = stdout w
       | (None, None) =>
           r = (None, nil_error)
           /\ stdout w'
              = stdout w
                ++ [ {| format := "tracks returned nil for some reason: %v";
                        args := [ATracks None] |} ]
       end.
Proof.
  unfold getTopTracks, bind, client.CurrentUsersTopTracks, send.
  cbv zeta. cbn [fst snd].
  destruct (spotify.topTracks c (log w) (duration p) 50) as [[page|] [e|]];
    cbn [fst snd]; unfold ret, Errorf, Printf, nil_error.
  - do 2 eexists. split; [reflexivity|]. split; [reflexivity|].
    split; [|reflexivity].
    unfold Sprintf. simpl. rewrite append_empty. reflexivity.
  - do 2 eexists. split; [reflexivity|]. split; [reflexivity|].
    split; reflexivity.
  - do 2 eexists. split; [reflexivity|]. split; [reflexivity|].
    split; [|reflexivity].
    unfold Sprintf. simpl. rewrite append_empty. reflexivity.
  - do 2 eexists. split; [reflexivity|]. split; [reflexivity|].
    split; reflexivity.
Qed.

(** X3.  If the fetch fails, [getTopTracksAndFill] sends nothing else: no track
    is added, and the error that comes back carries both prefixes. *)
Theorem getTopTracksAndFill_stops_on_fetch_error (w : World) (e : string) :
  snd (spotify.topTracks c (log w) (duration p) 50) = Some e ->
  getTopTracksAndFill c p w
  = (Returns
       (Some ("getTopTracks(): unable to retrieve users top tracks: "
              ++ e ++ newline)%string),
     record c fetch (Some e) w).
Proof.
  intros He.
  assert (Hget : getTopTracks p c w
                 = (Returns (None,
                      Some ("unable to retrieve users top tracks: " ++ e)%string),
                    record c fetch (Some e) w)).
  { unfold getTopTracks, bind, client.CurrentUsersTopTracks, send.
    cbv zeta. rewrite He. unfold ret, Errorf, Sprintf, fetch.
    simpl. rewrite append_empty. reflexivity. }
  unfold getTopTracksAndFill.
  rewrite (bind_Returns _ _ _ _ _ Hget). cbn [snd].
  unfold ret, Errorf, Sprintf. simpl. reflexivity.
Qed.

End Fetch.

(** ** Filling when nothing fails, and what filling never sends *)

Section FillMore.
Variable c : spotify.Client.
Variable playlistID : spotify.ID.

Lemma maxAttempts_positive : exists n, backoff.maxAttempts = S n.
Proof.
  destruct backoff.maxAttempts as [|n] eqn:E.
  - vm_compute in E. discriminate.
  - exists n. reflexivity.
Qed.

(** A request that succeeds at once is the only one [Retry] sends. *)
Lemma Retry_first_success track b w :
  snd (spotify.addTracks c (log w) playlistID [spotify.FullTrack.ID track])
    = None ->
  backoff.Retry backoff.maxAttempts (addTrackOp c playlistID track) b w
  = (Returns nil_error, record c (addCall playlistID track) None w).
Proof.
  intros Hok. unfold backoff.Retry.
  destruct (RetryFacts.Reset_run b w) as (b' & Hreset & _).
  rewrite (bind_Returns _ _ _ _ _ Hreset).
  destruct maxAttempts_positive as [n ->]. cbn [backoff.retryLoop].
  pose proof (RetryFacts.addTrackOp_run c playlistID track w) as Hop.
  rewrite Hok in Hop.
  rewrite (bind_Returns _ _ _ _ _ Hop). reflexivity.
Qed.

Lemma fillTracks_all_succeed tracks :
  (forall h ids, snd (spotify.addTracks c h playlistID ids) = None) ->
  forall w,
    exists w',
      fillTracks c playlistID tracks w = (Returns nil_error, w')
      /\ log w' = log w ++ map (succeededAdd playlistID) tracks.
Proof.
  intros Hok. induction tracks as [|track tracks IH]; intros w.
  - exists w. split; [reflexivity|]. cbn [map]. rewrite app_nil_r. reflexivity.
  - cbn [fillTracks].
    destruct (RetryFacts.NewExponentialBackOff_run w) as (b & Hnew & _).
    rewrite (bind_Returns _ _ _ _ _ Hnew).
    rewrite (bind_Returns _ _ _ _ _
               (Retry_first_success track b w (Hok _ _))).
    unfold nil_error at 1. cbv iota.
    destruct (IH (record c (addCall playlistID track) None w)) as (w' & Hrun & Hlog).
    exists w'. split; [exact Hrun|].
    rewrite Hlog, record_log, <- app_assoc. reflexivity.
Qed.

Lemma served_calls tracks :
  forall groups,
    Forall2 (servedBy playlistID) tracks groups ->
    forall ev, In ev (List.concat groups) ->
      exists t, In t tracks /\ spotify.call ev = addCall playlistID t.
Proof.
  intros groups H. induction H as [|t g ts gs [errs ->] _ IH]; intros ev Hin.
  - contradiction.
  - cbn [List.concat] in Hin. apply in_app_iff in Hin.
    destruct Hin as [Hin | Hin].
    + exists t. split; [left; reflexivity|].
      eapply RetryFacts.calls_attempts; eassumption.
    + destruct (IH ev Hin) as (t' & Ht' & Hcall).
      exists t'. split; [right; assumption | assumption].
Qed.

(** X5.  Whatever happens, [fillPlaylist] returns, and all it has sent are
    add-tracks requests on the target playlist, each for one track of the
    page: it never touches another playlist and never removes a track. *)
Theorem fillPlaylist_only_adds_page_tracks
  (page : spotify.FullTrackPage.t) (w : World) :
  exists err w' events,
    fillPlaylist c playlistID (Some page) w = (Returns err, w')
    /\ log w' = log w ++ events
    /\ forall ev, In ev events ->
         exists t, In t (spotify.FullTrackPage.Tracks page)
                   /\ spotify.call ev
                      = spotify.AddTracksToPlaylist playlistID
                          [spotify.FullTrack.ID t].
Proof.
  cbn [fillPlaylist].
  destruct (RetryFacts.fillTracks_spec c playlistID
              (spotify.FullTrackPage.Tracks page) w)
    as (err & w' & groups & Hrun & _ & Hlog & Hspec).
  exists err, w', (List.concat groups).
  split; [exact Hrun|]. split; [exact Hlog|].
  intros ev Hin. destruct err as [e|].
  - destruct Hspec as (served & track & rest & gserved & g
                       & Ht & -> & Hserved & (errs & _ & ->) & _).
    rewrite concat_app in Hin. cbn [List.concat] in Hin.
    rewrite app_nil_r in Hin. apply in_app_iff in Hin.
    destruct Hin as [Hin | Hin].
    + destruct (served_calls served gserved Hserved ev Hin) as (t & Hin' & Hc).
      exists t. split; [|exact Hc].
      rewrite Ht. apply in_app_iff. left. assumption.
    + exists track. split.
      * rewrite Ht. apply in_app_iff. right. left. reflexivity.
      * eapply RetryFacts.calls_attempts; eassumption.
  - exact (served_calls _ groups Hspec ev Hin).
Qed.

End FillMore.

Section HappyPath.
Variable c : spotify.Client.
Variable p : playlistConfig.

(** X4.  When the fetch answers a page and no add-tracks request on the
    configuration's playlist fails, [getTopTracksAndFill] returns nil after
    the fetch and exactly one add-tracks request per track, in the page's
    order. *)
Theorem getTopTracksAndFill_one_request_per_track_when_none_fails
  (page : spotify.FullTrackPage.t) (w : World) :
  spotify.topTracks c (log w) (duration p) 50 = (Some page, nil_error) ->
  (forall h ids, snd (spotify.addTracks c h (id p) ids) = None) ->
  exists w',
    getTopTracksAndFill c p w = (Returns nil_error, w')
    /\ map spotify.call (log w')
       = map spotify.call (log w)
         ++ spotify.CurrentUsersTopTracks (duration p) 50
            :: map (fun t => spotify.AddTracksToPlaylist (id p)
                               [spotify.FullTrack.ID t])
                 (spotify.FullTrackPage.Tracks page).
Proof.
  intros Hfetch Hok. unfold getTopTracksAndFill.
  pose proof (getTopTracks_run c p w) as Hget. cbv zeta in Hget.
  rewrite Hfetch in Hget. unfold nil_error in Hget.
  rewrite (bind_Returns _ _ _ _ _ Hget). cbn [fst snd fillPlaylist].
  destruct (fillTracks_all_succeed c (id p) (spotify.FullTrackPage.Tracks page)
              Hok (record c (spotify.CurrentUsersTopTracks (duration p) 50)
                     None w))
    as (w' & Hrun & Hlog).
  unfold nil_error at 1. cbv iota.
  rewrite (bind_Returns _ _ _ _ _ Hrun).
  exists w'. split; [reflexivity|].
  rewrite Hlog, record_log, !map_app, <- app_assoc, map_map. reflexivity.
Qed.

End HappyPath.

(** Three top tracks and a service that answers every request. *)
Lemma getTopTracksAndFill_one_request_per_track_when_none_fails_witness :
  let c := Samples.healthy [] (map Samples.track ["a"; "b"; "c"]) [] in
  let p := configOf (Samples.playlist "p3" "Favorite Long Term Tracks")
             spotify.LongTermRange Samples.me in
  exists w',
    getTopTracksAndFill c p Samples.world0 = (Returns nil_error, w')
    /\ map spotify.call (log w')
       = [spotify.CurrentUsersTopTracks "long_term" 50;
          spotify.AddTracksToPlaylist "p3" ["a"];
          spotify.AddTracksToPlaylist "p3" ["b"];
          spotify.AddTracksToPlaylist "p3" ["c"]].
Proof.
  intros c p.
  apply (getTopTracksAndFill_one_request_per_track_when_none_fails c p
           {| spotify.FullTrackPage.Tracks := map Samples.track ["a"; "b"; "c"] |}
           Samples.world0).
  - reflexivity.
  - intros h ids. reflexivity.
Defined.

(** A failing fetch of the short-term tracks. *)
Lemma getTopTracksAndFill_stops_on_fetch_error_witness :
  let c := Samples.withTopTracks (fun _ _ _ => (None, Some "401 Unauthorized"))
             (Samples.healthy [] [] []) in
  let p := configOf (Samples.playlist "p1" "Favorite Short Term Tracks")
             spotify.ShortTermRange Samples.me in
  exists w',
    getTopTracksAndFill c p Samples.world0
    = (Returns
         (Some ("getTopTracks(): unable to retrieve users top tracks: 401 Unauthorized"
                ++ newline)%string), w')
    /\ map spotify.call (log w')
       = [spotify.CurrentUsersTopTracks "short_term" 50].
Proof.
  intros c p. eexists. split.
  - apply (getTopTracksAndFill_stops_on_fetch_error c p Samples.world0
             "401 Unauthorized"). reflexivity.
  - reflexivity.
Defined.

(** ** Purging, one playlist and all of them (lines 121-132 and 261-280) *)


Lemma bind_ret {A B} (a : A) (k : A -> M B) w : bind (ret a) k w = k a w.
Proof. reflexivity. Qed.

Section PurgeMore.
Variable c : spotify.Client.

Let fetchOf (playlist : spotify.SimplePlaylist.t) : spotify.Call :=
  spotify.GetPlaylistItems (spotify.SimplePlaylist.ID playlist).

(** The three ways [purgeTracks] can go, by the answer to its fetch. *)
Lemma purgeTracks_run playlist w :
  match spotify.playlistItems c (log w) (spotify.SimplePlaylist.ID playlist) with
  | (_, Some e) =>
      purgeTracks c playlist w
      = (Returns (Some e), record c (fetchOf playlist) (Some e) w)
  | (None, None) =>
      purgeTracks c playlist w
      = (Panics nil_dereference, record c (fetchOf playlist) None w)
  | (Some plTracks, None) =>
      let w1 := record c (fetchOf playlist) None w in
      let ids := map itemID (spotify.PlaylistItemPage.Items plTracks) in
      purgeTracks c playlist w
      = (Returns nil_error,
         record c
           (spotify.RemoveTracksFromPlaylist
              (spotify.SimplePlaylist.ID playlist) ids)
           (snd (spotify.removeTracks c (log w1)
                   (spotify.SimplePlaylist.ID playlist) ids))
           w1)
  end.
Proof.
  unfold purgeTracks, bind, client.GetPlaylistItems,
    client.RemoveTracksFromPlaylist, send.
  cbv zeta.
  destruct (spotify.playlistItems c (log w)
              (spotify.SimplePlaylist.ID playlist)) as [[pg|] [e|]];
    reflexivity.
Qed.

(** X7.  If the fetch of the playlist's items fails, [purgeTracks] returns that
    very error and sends no remove request. *)
Theorem purgeTracks_returns_fetch_error
  (playlist : spotify.SimplePlaylist.t) (w : World) (e : string) :
  snd (spotify.playlistItems c (log w) (spotify.SimplePlaylist.ID playlist))
    = Some e ->
  exists w',
    purgeTracks c playlist w = (Returns (Some e), w')
    /\ log w' = log w
                ++ [ {| spotify.call :=
                          spotify.GetPlaylistItems
                            (spotify.SimplePlaylist.ID playlist);
                        spotify.failure := Some e |} ]
    /\ stdout w' = stdout w.
Proof.
  intros He. pose proof (purgeTracks_run playlist w) as Hrun.
  destruct (spotify.playlistItems c (log w)
              (spotify.SimplePlaylist.ID playlist)) as [[pg|] [e'|]];
    cbn [snd] in He; try discriminate;
    injection He as ->; eexists; (split; [exact Hrun|]); split; reflexivity.
Qed.


End PurgeMore.

(** The items of "p1" cannot be fetched. *)
Lemma purgeTracks_returns_fetch_error_witness :
  let c := Samples.withPlaylistItems
             (fun _ _ => (None, Some "500 Internal Server Error"))
             (Samples.healthy [] [] []) in
  exists w',
    purgeTracks c (Samples.playlist "p1" "Favorite Short Term Tracks")
      Samples.world0
    = (Returns (Some "500 Internal Server Error"), w')
    /\ map spotify.call (log w') = [spotify.GetPlaylistItems "p1"].
Proof.
  intros c.
  destruct (purgeTracks_returns_fetch_error c
              (Samples.playlist "p1" "Favorite Short Term Tracks")
              Samples.world0 "500 Internal Server Error" eq_refl)
    as (w' & Hrun & Hlog & _).
  exists w'. split; [exact Hrun|]. rewrite Hlog. reflexivity.
Defined.

(** ** Discovery when a creation fails (lines 151-161) *)

Section CreationFailure.
Variable c : spotify.Client.
Variable user : spotify.PrivateUser.t.

Lemma createPlaylists_failure names :
  forall found w l e w',
    createPlaylists c user names found w = (Returns (l, Some e), w') ->
    l = []
    /\ exists done n rest err,
         names = done ++ n :: rest
         /\ log w' = log w ++ map (created user) done
                     ++ [ {| spotify.call := createCall user n;
                             spotify.failure := Some err |} ]
         /\ e = creationError user n err.
Proof.
  induction names as [|v names IH]; intros found w l e w' Hrun.
  - discriminate.
  - rewrite createPlaylists_cons in Hrun.
    destruct (spotify.createPlaylist c (log w) (spotify.PrivateUser.ID user) v
                automatedDescription false false) as [[pl|] [err|]].
    + unfold Errorf in Hrun. injection Hrun as <- <- <-.
      split; [reflexivity|]. exists [], v, names, err.
      split; [reflexivity|]. split; [reflexivity|].
      unfold creationError. reflexivity.
    + destruct (IH _ _ _ _ _ Hrun) as (Hl & done & n & rest & err & -> & Hlog & He).
      split; [assumption|]. exists (v :: done), n, rest, err.
      split; [reflexivity|]. split; [|assumption].
      rewrite Hlog, record_log. cbn [map]. rewrite <- !app_assoc. reflexivity.
    + unfold Errorf in Hrun. injection Hrun as <- <- <-.
      split; [reflexivity|]. exists [], v, names, err.
      split; [reflexivity|]. split; [reflexivity|].
      unfold creationError. reflexivity.
    + discriminate.
Qed.

(** X8.  When [getAutomatedPlaylists] returns an error, none of the user's
    playlists matched and a creation failed: the result is nil, the
    playlists created before the failing one stay on the service, nothing is
    sent after the failed request, and the error names the playlist that
    could not be created. *)
Theorem getAutomatedPlaylists_stops_at_failed_creation
  (page : spotify.SimplePlaylistPage.t) (w w' : World)
  (found : list spotify.SimplePlaylist.t) (e : string) :
  getAutomatedPlaylists c user (Some page) w = (Returns (found, Some e), w') ->
  found = []
  /\ filter matchesAutomated (spotify.SimplePlaylistPage.Playlists page) = []
  /\ exists done n rest err,
       ["Favorite Short Term Tracks"; "Favorite Medium Term Tracks";
        "Favorite Long Term Tracks"] = done ++ n :: rest
       /\ log w' = log w ++ map (created user) done
                   ++ [ {| spotify.call := createCall user n;
                           spotify.failure := Some err |} ]
       /\ e = creationError user n err.
Proof.
  unfold getAutomatedPlaylists.
  destruct (filter matchesAutomated (spotify.SimplePlaylistPage.Playlists page))
    as [|v0 l0].
  - cbn [List.length Nat.eqb]. intros Hrun.
    destruct (createPlaylists_failure _ _ _ _ _ _ Hrun) as (Hl & Hrest).
    split; [assumption|]. split; [reflexivity | exact Hrest].
  - cbn [List.length Nat.eqb]. unfold ret. discriminate.
Qed.

End CreationFailure.

(** The second creation fails. *)
Lemma getAutomatedPlaylists_stops_at_failed_creation_witness :
  let c := Samples.withCreatePlaylist
             (fun h u n d a b =>
                if (List.length h =? 1)%nat then (None, Some "429 Too Many Requests")
                else spotify.createPlaylist (Samples.healthy [] [] []) h u n d a b)
             (Samples.healthy [] [] []) in
  let page := {| spotify.SimplePlaylistPage.Playlists := [] |} in
  let e := creationError Samples.me "Favorite Medium Term Tracks"
             "429 Too Many Requests" in
  exists w',
    getAutomatedPlaylists c Samples.me (Some page) Samples.world0
    = (Returns ([], Some e), w')
    /\ map spotify.call (log w')
       = [createCall Samples.me "Favorite Short Term Tracks";
          createCall Samples.me "Favorite Medium Term Tracks"]
    /\ exists done n rest err,
         ["Favorite Short Term Tracks"; "Favorite Medium Term Tracks";
          "Favorite Long Term Tracks"] = done ++ n :: rest
         /\ log w' = log Samples.world0 ++ map (created Samples.me) done
                     ++ [ {| spotify.call := createCall Samples.me n;
                             spotify.failure := Some err |} ]
         /\ e = creationError Samples.me n err.
Proof.
  intros c page e.
  exists (snd (getAutomatedPlaylists c Samples.me (Some page) Samples.world0)).
  assert (Hrun : getAutomatedPlaylists c Samples.me (Some page) Samples.world0
                 = (Returns ([], Some e),
                    snd (getAutomatedPlaylists c Samples.me (Some page)
                           Samples.world0)))
    by (vm_compute; reflexivity).
  split; [exact Hrun|]. split; [vm_compute; reflexivity|].
  exact (proj2 (proj2 (getAutomatedPlaylists_stops_at_failed_creation
                         c Samples.me page Samples.world0 _ [] e Hrun))).
Defined.

(** ** The method createPlaylist (lines 89-101) *)

Section CreatePlaylist.
Variable c : spotify.Client.

Lemma addEach_spec playlistID tracks :
  forall w,
    exists err w' served,
      addEach c playlistID tracks w = (Returns err, w')
      /\ match err with
         | None =>
             served = tracks
             /\ log w' = log w ++ map (succeededAdd playlistID) tracks
         | Some e =>
             exists t rest e0,
               tracks = served ++ t :: rest
               /\ log w' = log w ++ map (succeededAdd playlistID) served
                           ++ [failedAdd playlistID t e0]
               /\ e = ("AddTracksToPlaylist(): unable to add track: "
                       ++ e0 ++ newline)%string
         end.
Proof.
  induction tracks as [|v tracks IH]; intros w.
  - exists None, w, []. split; [reflexivity|]. split; [reflexivity|].
    cbn [map]. rewrite app_nil_r. reflexivity.
  - cbn [addEach]. unfold bind at 1. unfold client.AddTracksToPlaylist, send.
    cbv zeta.
    destruct (snd (spotify.addTracks c (log w) playlistID
                     [spotify.FullTrack.ID v])) as [e0|].
    + eexists (Some _), _, []. split; [reflexivity|].
      exists v, tracks, e0. split; [reflexivity|]. split; [reflexivity|].
      unfold Sprintf. simpl. reflexivity.
    + destruct (IH (record c (spotify.AddTracksToPlaylist playlistID
                                [spotify.FullTrack.ID v]) None w))
        as (err & w' & served & Hrun & Hspec).
      exists err, w', (match err with None => v :: tracks | Some _ => v :: served end).
      split; [exact Hrun|]. destruct err as [e|].
      * destruct Hspec as (t & rest & e0 & -> & Hlog & He).
        exists t, rest, e0. split; [reflexivity|]. split; [|exact He].
        rewrite Hlog, record_log. cbn [map]. rewrite <- !app_assoc. reflexivity.
      * destruct Hspec as [_ Hlog]. split; [reflexivity|].
        rewrite Hlog, record_log. cbn [map]. rewrite <- !app_assoc. reflexivity.
Qed.

(** X9.  [createPlaylist] first creates the playlist with the configuration's
    name, description and flags for the configuration's user.  If that
    fails it returns the error as it is and adds nothing.  Otherwise it
    sends one add-tracks request per track on the new playlist, in the
    page's order and without any retry: the first failed request ends the
    run with an error, and the tracks after it get no request. *)
Theorem createPlaylist_adds_once_and_stops_at_first_error
  (config : playlistConfig) (u : spotify.PrivateUser.t)
  (page : spotify.FullTrackPage.t) (w : World) :
  user config = Some u ->
  let create :=
    spotify.CreatePlaylistForUser (spotify.PrivateUser.ID u) (name config)
      (description config) (public config) (collaborative config) in
  exists o w',
    createPlaylist config c (Some page) w = (o, w')
    /\ match spotify.createPlaylist c (log w) (spotify.PrivateUser.ID u)
               (name config) (description config) (public config)
               (collaborative config) with
       | (_, Some e) =>
           o = Returns (Some e) /\ w' = record c create (Some e) w
       | (Some newPlaylist, None) =>
           let newID :=
             spotify.SimplePlaylist.ID
               (spotify.FullPlaylist.SimplePlaylist newPlaylist) in
           let w1 := record c create None w in
           (o = Returns nil_error
            /\ log w' = log w1
                        ++ map (succeededAdd newID)
                             (spotify.FullTrackPage.Tracks page))
           \/ (exists served t rest e0,
                 spotify.FullTrackPage.Tracks page = served ++ t :: rest
                 /\ o = Returns
                          (Some ("AddTracksToPlaylist(): unable to add track: "
                                 ++ e0 ++ newline)%string)
                 /\ log w' = log w1 ++ map (succeededAdd newID) served
                             ++ [failedAdd newID t e0])
       | (None, None) =>
           w' = record c create None w
           /\ match spotify.FullTrackPage.Tracks page with
              | [] => o = Returns nil_error
              | _ :: _ => o = Panics nil_dereference
              end
       end.
Proof.
  intros Hu create. unfold createPlaylist. rewrite Hu.
  unfold bind at 1. unfold client.CreatePlaylistForUser, send. cbv zeta.
  fold create.
  destruct (spotify.createPlaylist c (log w) (spotify.PrivateUser.ID u)
              (name config) (description config) (public config)
              (collaborative config)) as [[newPlaylist|] [e|]]; cbn [fst snd].
  - do 2 eexists. split; [reflexivity|]. split; reflexivity.
  - destruct (spotify.FullTrackPage.Tracks page) as [|t0 ts] eqn:Et.
    + do 2 eexists. split; [reflexivity|]. left. split; [reflexivity|].
      cbn [map]. rewrite app_nil_r. reflexivity.
    + destruct (addEach_spec
                  (spotify.SimplePlaylist.ID
                     (spotify.FullPlaylist.SimplePlaylist newPlaylist))
                  (t0 :: ts) (record c create None w))
        as (err & w' & served & Hrun & Hspec).
      exists (Returns err), w'. split; [exact Hrun|].
      destruct err as [e|].
      * right. destruct Hspec as (t & rest & e0 & Htracks & Hlog & ->).
        exists served, t, rest, e0. split; [exact Htracks|].
        split; [reflexivity | exact Hlog].
      * left. destruct Hspec as [_ Hlog]. split; [reflexivity | exact Hlog].
  - do 2 eexists. split; [reflexivity|]. split; reflexivity.
  - destruct (spotify.FullTrackPage.Tracks page) as [|t0 ts].
    + do 2 eexists. split; [reflexivity|]. split; reflexivity.
    + do 2 eexists. split; [reflexivity|]. split; reflexivity.
Qed.

(** X10.  With a nil page [createPlaylist] panics, but only after the playlist
    has been created on the service; with a nil user it panics before
    anything is sent. *)
Theorem createPlaylist_nil_page_leaves_playlist_behind
  (config : playlistConfig) (w : World) :
  (user config = None ->
   forall page, createPlaylist config c page w = (Panics nil_dereference, w))
  /\ (forall u,
        user config = Some u ->
        snd (spotify.createPlaylist c (log w) (spotify.PrivateUser.ID u)
               (name config) (description config) (public config)
               (collaborative config)) = None ->
        createPlaylist config c None w
        = (Panics nil_dereference,
           record c
             (spotify.CreatePlaylistForUser (spotify.PrivateUser.ID u)
                (name config) (description config) (public config)
                (collaborative config))
             None w)).
Proof.
  split.
  - intros Hu page. unfold createPlaylist. rewrite Hu. reflexivity.
  - intros u Hu Hok. unfold createPlaylist. rewrite Hu.
    unfold bind at 1. unfold client.CreatePlaylistForUser, send. cbv zeta.
    rewrite Hok. reflexivity.
Qed.

End CreatePlaylist.

(** Three tracks, the request for the second fails: the third is never
    asked for. *)
Lemma createPlaylist_adds_once_and_stops_at_first_error_witness :
  let c := Samples.withAddTracks
             (fun h _ _ => if (List.length h =? 2)%nat
                           then ("", Some "503 Service Unavailable")
                           else ("snapshot", nil_error))
             (Samples.healthy [] [] []) in
  let config := configOf (Samples.playlist "" "Mix") "" Samples.me in
  let page := {| spotify.FullTrackPage.Tracks :=
                   map Samples.track ["a"; "b"; "c"] |} in
  exists o w',
    createPlaylist config c (Some page) Samples.world0 = (o, w')
    /\ o <> Returns nil_error
    /\ map spotify.call (log w')
       = [spotify.CreatePlaylistForUser "me" "Mix" "" false false;
          spotify.AddTracksToPlaylist "id of Mix" ["a"];
          spotify.AddTracksToPlaylist "id of Mix" ["b"]].
Proof.
  intros c config page.
  destruct (createPlaylist_adds_once_and_stops_at_first_error c config
              Samples.me page Samples.world0 eq_refl)
    as (o & w' & Hrun & Hspec).
  exists o, w'. split; [exact Hrun|].
  pose proof Hrun as Hconcrete. vm_compute in Hconcrete.
  injection Hconcrete as <- <-.
  split; [discriminate | reflexivity].
Defined.

(** A configuration with a user, a nil page. *)
Lemma createPlaylist_nil_page_leaves_playlist_behind_witness :
  let c := Samples.healthy [] [] [] in
  let config := configOf (Samples.playlist "" "Mix") "" Samples.me in
  exists w',
    createPlaylist config c None Samples.world0 = (Panics nil_dereference, w')
    /\ log w'
       = [ {| spotify.call :=
                spotify.CreatePlaylistForUser "me" "Mix" "" false false;
              spotify.failure := None |} ].
Proof.
  intros c config. eexists. split.
  - apply (proj2 (createPlaylist_nil_page_leaves_playlist_behind c config
                    Samples.world0) Samples.me); reflexivity.
  - reflexivity.
Defined.

(** ** List mode and purge mode of main (lines 250-280) *)

Section Modes.
Variable c : spotify.Client.
Variable user : spotify.PrivateUser.t.







End Modes.

Section PurgeMode.
Variable c : spotify.Client.
Variable user : spotify.PrivateUser.t.






End PurgeMode.



(** ** The wait group's counter, progress and exit statuses (lines 334-360) *)

Module AccountingFacts.
Import Tasks TaskFacts TaskAccounting.

Lemma countJoined_le l : (countJoined l <= List.length l)%nat.
Proof. unfold countJoined. apply filter_length_le. Qed.

Lemma stateOf_setTask_cases i j st l s :
  stateOf i (setTask j st l) = Some s -> s = st \/ stateOf i l = Some s.
Proof.
  unfold setTask. destruct (nth_error l j) as [t|] eqn:E; [|auto].
  apply nth_error_split in E. destruct E as (l1 & l2 & -> & <-).
  destruct (middle l1 t l2) as (_ & -> & ->).
  unfold stateOf. intros H.
  destruct (Nat.lt_ge_cases i (List.length l1)) as [Hlt | Hge].
  - right. rewrite nth_error_app1 in H |- * by assumption. exact H.
  - rewrite nth_error_app2 in H |- * by assumption.
    destruct (i - List.length l1)%nat as [|k].
    + left. cbn in H. injection H as <-. reflexivity.
    + right. exact H.
Qed.

Lemma stateOf_snoc i l t s :
  stateOf i (l ++ [t]) = Some s -> s = state t \/ stateOf i l = Some s.
Proof.
  unfold stateOf. intros H.
  destruct (Nat.lt_ge_cases i (List.length l)) as [Hlt | Hge].
  - right. rewrite nth_error_app1 in H by assumption. exact H.
  - rewrite nth_error_app2 in H by assumption.
    destruct (i - List.length l)%nat as [|[|k]]; cbn in H;
      [left; injection H as <-; reflexivity | discriminate | discriminate].
Qed.

(** If not every task has joined, one of them is still running. *)
Lemma some_task_running l :
  (countJoined l < List.length l)%nat ->
  exists i, stateOf i l = Some Running.
Proof.
  induction l as [|t l IH]; intros H; [cbn in H; lia|].
  change (t :: l) with ([t] ++ l) in H.
  rewrite countJoined_app, countJoined_one, length_app in H. cbn [List.length] in H.
  destruct (joined t) eqn:Ej.
  - destruct IH as [i Hi]; [lia|]. exists (S i). exact Hi.
  - exists 0%nat. unfold stateOf. cbn. unfold joined in Ej.
    destruct (state t); try discriminate. reflexivity.
Qed.

Section Steps.
Variable cs : Configs.

Lemma accounting_init : accounting init.
Proof.
  constructor; cbn; try discriminate; try reflexivity.
  - lia.
  - left. reflexivity.
  - intros i. unfold stateOf. destruct i; discriminate.
Qed.

(** A step that changes one task's state, with the change of the counter
    that goes with it. *)
Lemma accounting_task p i s st out delta :
  accounting p ->
  stateOf i (tasks p) = Some s ->
  st <> Running ->
  (s = Running /\ delta = 1%Z \/ s <> Running /\ delta = 0%Z) ->
  (out = output p /\ st <> Reported
   \/ exists e, out = output p ++ [failedMessage e]) ->
  accounting {| pc := pc p; wg := wg p - delta;
                tasks := setTask i st (tasks p);
                output := out; exited := None |}.
Proof.
  intros [Hwg Hlen Hstarted H0 H1 H2 Hcodes Hrep] Hi Hst Hdelta Hout.
  destruct (setTask_shape i st (tasks p)) as [Hl _].
  constructor; cbn [pc wg tasks output exited]; try discriminate.
  - unfold added in *. cbn [pc].
    destruct Hdelta as [[-> ->] | [Hs ->]].
    + rewrite (setTask_joins i st _ Hi Hst). lia.
    + rewrite (setTask_count_same i s st _ Hi Hs Hst). lia.
  - rewrite Hl. exact Hlen.
  - destruct (pc p); rewrite ?Hl; try exact Hstarted.
    rewrite Hstarted in Hi. unfold stateOf in Hi. destruct i; discriminate.
  - left. reflexivity.
  - intros k Hk. destruct Hout as [[-> Hnr] | [e ->]].
    + destruct (stateOf_setTask_cases _ _ _ _ _ Hk) as [<- | Hk'];
        [contradiction | exact (Hrep k Hk')].
    + exists e. apply in_app_iff. right. left. reflexivity.
Qed.

Lemma accounting_step p q : accounting p -> step cs p q -> accounting q.
Proof.
  intros Hacc Hstep.
  pose proof Hacc as [Hwg Hlen Hstarted H0 H1 H2 Hcodes Hrep].
  destruct Hstep as
    [ p Halive Hat | p n cfg Halive Hat Hnth | p Halive Hat Hzero
    | p elapsed Halive Hat | p Halive Hat
    | p i err Halive Hi | p i Halive Hi | p i Halive Hi | p i e Halive Hi
    | p i Halive Hi | p i Halive Hi ].
  - (* wg.Add(3) *)
    rewrite Hat in Hstarted.
    constructor; cbn [pc wg tasks output exited]; try discriminate;
      try assumption.
    + unfold added in *. rewrite Hat in Hwg. cbn [pc]. lia.
    + rewrite Hstarted. cbn. split; [reflexivity | lia].
    + left. reflexivity.
  - (* go func *)
    rewrite Hat in Hstarted. destruct Hstarted as [Hl Hn].
    constructor; cbn [pc wg tasks output exited]; try discriminate.
    + unfold added in *. rewrite Hat in Hwg.
      rewrite countJoined_app, countJoined_one. cbn [joined state].
      destruct (S n =? 3)%nat; cbn [pc]; lia.
    + rewrite length_app. cbn [List.length]. lia.
    + rewrite length_app, Hl. cbn [List.length].
      destruct (S n =? 3)%nat eqn:E.
      * apply Nat.eqb_eq in E. lia.
      * apply Nat.eqb_neq in E. split; lia.
    + left. reflexivity.
    + intros k Hk. apply stateOf_snoc in Hk. cbn [state] in Hk.
      destruct Hk as [Hk | Hk]; [discriminate | exact (Hrep k Hk)].
  - (* wg.Wait() returns *)
    rewrite Hat in Hstarted.
    constructor; cbn [pc wg tasks output exited]; try discriminate;
      try assumption.
    + unfold added in *. rewrite Hat in Hwg. cbn [pc]. exact Hwg.
    + left. reflexivity.
  - (* the last line *)
    rewrite Hat in Hstarted.
    constructor; cbn [pc wg tasks output exited]; try discriminate;
      try assumption.
    + unfold added in *. rewrite Hat in Hwg. cbn [pc]. exact Hwg.
    + left. reflexivity.
    + intros k Hk. destruct (Hrep k Hk) as [e He]. exists e.
      apply in_app_iff. left. exact He.
  - (* main returns *)
    rewrite Hat in Hstarted.
    constructor; cbn [pc wg tasks output exited]; try discriminate;
      try assumption.
    + unfold added in *. rewrite Hat in Hwg. cbn [pc]. exact Hwg.
    + reflexivity.
    + right. left. reflexivity.
  - apply (accounting_task p i Running (Returned err) (output p) 1 Hacc Hi);
      [discriminate | left; split; reflexivity
      | left; split; [reflexivity | discriminate]].
  - apply (accounting_task p i Running Crashed (output p) 1 Hacc Hi);
      [discriminate | left; split; reflexivity
      | left; split; [reflexivity | discriminate]].
  - replace (wg p) with (wg p - 0)%Z by lia.
    apply (accounting_task p i (Returned None) Ended (output p) 0 Hacc Hi);
      [discriminate | right; split; [discriminate | reflexivity]
      | left; split; [reflexivity | discriminate]].
  - replace (wg p) with (wg p - 0)%Z by lia.
    apply (accounting_task p i (Returned (Some e)) Reported
             (output p ++ [failedMessage e]) 0 Hacc Hi);
      [discriminate | right; split; [discriminate | reflexivity]
      | right; exists e; reflexivity].
  - (* os.Exit(1) *)
    constructor; cbn [pc wg tasks output exited]; try discriminate;
      try assumption.
    + intros _. exists i. exact Hi.
    + right. right. left. reflexivity.
  - (* the panic ends the process *)
    constructor; cbn [pc wg tasks output exited]; try discriminate;
      try assumption.
    + intros _. exists i. exact Hi.
    + right. right. right. reflexivity.
Qed.

Lemma reachable_accounting p : reachable cs p -> accounting p.
Proof.
  induction 1 as [|p q _ IH Hstep].
  - apply accounting_init.
  - exact (accounting_step p q IH Hstep).
Qed.

End Steps.

End AccountingFacts.

Section TaskProperties.
Import Tasks TaskFacts TaskAccounting AccountingFacts.
Variable cs : Configs.

(** X15.  The wait group's counter is never negative and never above 3: it is 0
    before [wg.Add(3)], and afterwards 3 less the number of tasks that have
    called [wg.Done]. *)
Theorem wait_group_counter_stays_in_range (p : Process) :
  reachable cs p ->
  (0 <= wg p <= 3)%Z
  /\ wg p = ((match pc p with AtAdd => 0 | _ => 3 end)
             - Z.of_nat (countJoined (tasks p)))%Z.
Proof.
  intros Hreach.
  destruct (reachable_accounting cs p Hreach)
    as [Hwg Hlen Hstarted _ _ _ _ _].
  split; [|exact Hwg].
  pose proof (countJoined_le (tasks p)) as Hle.
  unfold added in Hwg. destruct (pc p); try lia.
  rewrite Hstarted in Hwg, Hle. cbn in Hwg, Hle. lia.
Qed.

(** X16.  The process never gets stuck: as long as it has not exited, [main] or
    one of the tasks can take a step.  In particular [wg.Wait] cannot block
    for ever, because a counter above 0 means that a task is still
    running. *)
Theorem fill_tasks_never_deadlock (p : Process) :
  reachable cs p -> exited p = None -> exists q, step cs p q.
Proof.
  intros Hreach Halive.
  destruct (reachable_accounting cs p Hreach)
    as [Hwg Hlen Hstarted _ _ _ _ _].
  destruct (pc p) as [|n| | |] eqn:Hat.
  - eexists. exact (step_add cs p Halive Hat).
  - destruct Hstarted as [_ Hn].
    destruct (nth_error (configsList cs) n) as [cfg|] eqn:E.
    + eexists. exact (step_go cs p n cfg Halive Hat E).
    + apply nth_error_None in E. cbn in E. lia.
  - destruct (Z.eq_dec (wg p) 0) as [Hz | Hnz].
    + eexists. exact (step_wait cs p Halive Hat Hz).
    + pose proof (countJoined_le (tasks p)) as Hle.
      unfold added in Hwg. rewrite Hat in Hwg.
      destruct (some_task_running (tasks p)) as [i Hi]; [lia|].
      eexists. exact (step_task_returns cs p i None Halive Hi).
  - eexists. exact (step_print cs p 0 Halive Hat).
  - eexists. exact (step_return cs p Halive Hat).
Qed.

(** X17.  Where an exit status comes from: 0 only from the return of [main], 1
    only from a task that has printed its error, 2 only from a task that
    panicked; there is no other status. *)
Theorem exit_status_tells_what_happened (p : Process) :
  reachable cs p ->
  (exited p = None \/ exited p = Some 0%Z \/ exited p = Some 1%Z
   \/ exited p = Some 2%Z)
  /\ (exited p = Some 0%Z -> pc p = AtReturn)
  /\ (exited p = Some 1%Z ->
      exists i e, stateOf i (tasks p) = Some Reported
                  /\ In (failedMessage e) (output p))
  /\ (exited p = Some 2%Z -> exists i, stateOf i (tasks p) = Some Crashed).
Proof.
  intros Hreach.
  destruct (reachable_accounting cs p Hreach)
    as [_ _ _ H0 H1 H2 Hcodes Hrep].
  split; [exact Hcodes|]. split; [exact H0|]. split.
  - intros He. destruct (H1 He) as [i Hi]. destruct (Hrep i Hi) as [e Hin].
    exists i, e. split; assumption.
  - exact H2.
Qed.


End TaskProperties.

(** When the three goroutines have just been started the counter is 3. *)
Lemma wait_group_counter_stays_in_range_witness :
  let cs := main_configs Samples.me [] in
  (0 <= Tasks.wg (Tasks.started cs) <= 3)%Z
  /\ Tasks.wg (Tasks.started cs) = 3%Z.
Proof.
  intros cs.
  destruct (wait_group_counter_stays_in_range cs (Tasks.started cs)
              (started_reachable cs)) as [Hrange Hwg].
  split; [exact Hrange | exact Hwg].
Defined.

(** Two tasks have returned and [main] waits: the third can still move. *)
Lemma fill_tasks_never_deadlock_witness :
  let cs := main_configs Samples.me [] in
  exists p q,
    Tasks.reachable cs p /\ Tasks.pc p = Tasks.AtWait /\ Tasks.wg p = 1%Z
    /\ Tasks.step cs p q.
Proof.
  intros cs.
  pose proof (started_reachable cs) as Hrun.
  advance Hrun ltac:(fun p =>
    exact (Tasks.step_task_returns cs p 0 None eq_refl eq_refl)).
  advance Hrun ltac:(fun p =>
    exact (Tasks.step_task_returns cs p 2 None eq_refl eq_refl)).
  match type of Hrun with
  | Tasks.reachable _ ?p =>
      destruct (fill_tasks_never_deadlock cs p Hrun eq_refl) as [q Hstep];
      exists p, q
  end.
  split; [exact Hrun|]. split; [reflexivity|]. split; [reflexivity|].
  exact Hstep.
Defined.

(** The medium-term task fails, prints its error and exits. *)
Lemma exit_status_tells_what_happened_witness :
  let cs := main_configs Samples.me [] in
  exists p,
    Tasks.reachable cs p /\ Tasks.exited p = Some 1%Z
    /\ exists i e, Tasks.stateOf i (Tasks.tasks p) = Some Tasks.Reported
                   /\ In (Tasks.failedMessage e) (Tasks.output p).
Proof.
  intros cs.
  pose proof (started_reachable cs) as Hrun.
  advance Hrun ltac:(fun p =>
    exact (Tasks.step_task_returns cs p 1 (Some "fillPlaylist(): boom")
             eq_refl eq_refl)).
  advance Hrun ltac:(fun p =>
    exact (Tasks.step_task_reports cs p 1 "fillPlaylist(): boom"
             eq_refl eq_refl)).
  advance Hrun ltac:(fun p =>
    exact (Tasks.step_task_exits cs p 1 eq_refl eq_refl)).
  match type of Hrun with
  | Tasks.reachable _ ?p =>
      destruct (exit_status_tells_what_happened cs p Hrun)
        as (_ & _ & Hone & _);
      exists p
  end.
  split; [exact Hrun|]. split; [reflexivity|]. exact (Hone eq_refl).
Defined.

(** ** The configurations, with duplicates and without (lines 294-331) *)

Section ConfigMore.
Variable u : spotify.PrivateUser.t.

Lemma lastNamed_app_last n l1 v l2 :
  spotify.SimplePlaylist.Name v = n ->
  (forall v', In v' l2 -> spotify.SimplePlaylist.Name v' <> n) ->
  lastNamed n (l1 ++ v :: l2) = Some v.
Proof.
  intros Hv Hafter. induction l1 as [|a l1 IH].
  - cbn [app lastNamed].
    destruct (lastNamed n l2) as [v'|] eqn:E.
    + apply lastNamed_Some in E. destruct E as [Hin Hn].
      exfalso. exact (Hafter v' Hin Hn).
    + rewrite Hv, String.eqb_refl. reflexivity.
  - cbn [app lastNamed]. rewrite IH. reflexivity.
Qed.

(** X19.  When several playlists have the name of a time range, the last one in
    the list wins: the configuration is built from it, whatever comes
    before. *)
Theorem last_playlist_of_a_name_wins
  (l1 l2 : list spotify.SimplePlaylist.t) (v : spotify.SimplePlaylist.t) :
  (forall v', In v' l2 ->
              spotify.SimplePlaylist.Name v' <> spotify.SimplePlaylist.Name v) ->
  let cs := main_configs u (l1 ++ v :: l2) in
  (spotify.SimplePlaylist.Name v = "Favorite Short Term Tracks" ->
   shortTermConfig cs = configOf v spotify.ShortTermRange u)
  /\ (spotify.SimplePlaylist.Name v = "Favorite Medium Term Tracks" ->
      medTermConfig cs = configOf v spotify.MediumTermRange u)
  /\ (spotify.SimplePlaylist.Name v = "Favorite Long Term Tracks" ->
      longTermConfig cs = configOf v spotify.LongTermRange u).
Proof.
  intros Hafter cs. subst cs. repeat split; intros Hname.
  - rewrite main_configs_short.
    rewrite (lastNamed_app_last shortTermName l1 v l2 Hname); [reflexivity|].
    intros v' Hin Heq. apply (Hafter v' Hin). rewrite Heq. symmetry. exact Hname.
  - rewrite main_configs_med.
    rewrite (lastNamed_app_last medTermName l1 v l2 Hname); [reflexivity|].
    intros v' Hin Heq. apply (Hafter v' Hin). rewrite Heq. symmetry. exact Hname.
  - rewrite main_configs_long.
    rewrite (lastNamed_app_last longTermName l1 v l2 Hname); [reflexivity|].
    intros v' Hin Heq. apply (Hafter v' Hin). rewrite Heq. symmetry. exact Hname.
Qed.

(** What a configuration slot holds after the loop, by the playlists of its
    name. *)
Lemma slot_cases n d l :
  let slot := match lastNamed n l with
              | Some v => configOf v d u
              | None => zeroConfig
              end in
  (slot = zeroConfig
   <-> forall v, In v l -> spotify.SimplePlaylist.Name v <> n)
  /\ (slot <> zeroConfig ->
      duration slot = d /\ user slot = Some u
      /\ exists v, In v l /\ spotify.SimplePlaylist.Name v = n
                   /\ id slot = spotify.SimplePlaylist.ID v).
Proof.
  cbv zeta. destruct (lastNamed n l) as [v|] eqn:E.
  - pose proof (lastNamed_Some n l v E) as [Hin Hn]. split.
    + split; [discriminate|].
      intros Habsent. exfalso. exact (Habsent v Hin Hn).
    + intros _. split; [reflexivity|]. split; [reflexivity|].
      exists v. split; [assumption|]. split; [assumption | reflexivity].
  - split.
    + split; [intros _; exact (lastNamed_None n l E) | reflexivity].
    + intros H. contradiction H. reflexivity.
Qed.

(** X20.  A configuration is left at its zero value exactly when no playlist of
    the list has the name of its time range; a configuration that is set
    has its own time range, the user, and the ID of a playlist of that
    name. *)
Theorem config_is_zero_exactly_when_name_is_absent
  (l : list spotify.SimplePlaylist.t) :
  let cs := main_configs u l in
  let absent n :=
    forall v, In v l -> spotify.SimplePlaylist.Name v <> n in
  let from n d cfg :=
    cfg <> zeroConfig ->
    duration cfg = d /\ user cfg = Some u
    /\ exists v, In v l /\ spotify.SimplePlaylist.Name v = n
                 /\ id cfg = spotify.SimplePlaylist.ID v in
  (shortTermConfig cs = zeroConfig <-> absent "Favorite Short Term Tracks")
  /\ (medTermConfig cs = zeroConfig <-> absent "Favorite Medium Term Tracks")
  /\ (longTermConfig cs = zeroConfig <-> absent "Favorite Long Term Tracks")
  /\ from "Favorite Short Term Tracks" "short_term" (shortTermConfig cs)
  /\ from "Favorite Medium Term Tracks" "medium_term" (medTermConfig cs)
  /\ from "Favorite Long Term Tracks" "long_term" (longTermConfig cs).
Proof.
  cbv zeta.
  rewrite main_configs_short, main_configs_med, main_configs_long.
  destruct (slot_cases shortTermName spotify.ShortTermRange l) as [Hs1 Hs2].
  destruct (slot_cases medTermName spotify.MediumTermRange l) as [Hm1 Hm2].
  destruct (slot_cases longTermName spotify.LongTermRange l) as [Hl1 Hl2].
  split; [exact Hs1|]. split; [exact Hm1|]. split; [exact Hl1|].
  split; [exact Hs2|]. split; [exact Hm2 | exact Hl2].
Qed.

End ConfigMore.

(** Two playlists called "Favorite Short Term Tracks". *)
Lemma last_playlist_of_a_name_wins_witness :
  let l := [Samples.playlist "old" "Favorite Short Term Tracks";
            Samples.playlist "p2" "Favorite Medium Term Tracks";
            Samples.playlist "new" "Favorite Short Term Tracks"] in
  id (shortTermConfig (main_configs Samples.me l)) = "new".
Proof.
  intros l.
  destruct (last_playlist_of_a_name_wins Samples.me
              [Samples.playlist "old" "Favorite Short Term Tracks";
               Samples.playlist "p2" "Favorite Medium Term Tracks"]
              [] (Samples.playlist "new" "Favorite Short Term Tracks"))
    as (Hshort & _).
  - intros v' [].
  - change l with ([Samples.playlist "old" "Favorite Short Term Tracks";
                    Samples.playlist "p2" "Favorite Medium Term Tracks"]
                   ++ [Samples.playlist "new" "Favorite Short Term Tracks"]).
    rewrite (Hshort eq_refl). reflexivity.
Defined.

(** ** Fill mode on an account without automated playlists *)

Section FreshAccount.
Variable c : spotify.Client.
Variable u : spotify.PrivateUser.t.

(** X14.  Fill mode on an account without any automated playlist: when the
    service answers every creation with a playlist that has the name asked
    for, [main] creates the three playlists and reaches the three [go]
    statements with every configuration set: each has the ID of the
    playlist created for its time range. *)
Theorem main_fill_mode_on_fresh_account
  (page : spotify.SimplePlaylistPage.t) (start : Z) (w : World) :
  spotify.usersPlaylists c (log w) 50 = (Some page, nil_error) ->
  filter matchesAutomated (spotify.SimplePlaylistPage.Playlists page) = [] ->
  (forall h user n d a b,
      exists fp,
        spotify.createPlaylist c h user n d a b = (Some fp, nil_error)
        /\ spotify.SimplePlaylist.Name (spotify.FullPlaylist.SimplePlaylist fp)
           = n) ->
  exists w' cs p1 p2 p3,
    main fillOnly c u start w = (Returns (Fork cs), w')
    /\ log w' = log w
                ++ [ {| spotify.call := spotify.CurrentUsersPlaylists 50;
                        spotify.failure := nil_error |};
                     created u "Favorite Short Term Tracks";
                     created u "Favorite Medium Term Tracks";
                     created u "Favorite Long Term Tracks" ]
    /\ shortTermConfig cs = configOf p1 spotify.ShortTermRange u
    /\ medTermConfig cs = configOf p2 spotify.MediumTermRange u
    /\ longTermConfig cs = configOf p3 spotify.LongTermRange u
    /\ spotify.SimplePlaylist.Name p1 = "Favorite Short Term Tracks"
    /\ spotify.SimplePlaylist.Name p2 = "Favorite Medium Term Tracks"
    /\ spotify.SimplePlaylist.Name p3 = "Favorite Long Term Tracks".
Proof.
  intros Hpl Hnone Hecho.
  set (w0 := record c (spotify.CurrentUsersPlaylists 50) None w).
  destruct (Hecho (log w0) (spotify.PrivateUser.ID u) "Favorite Short Term Tracks"
              automatedDescription false false) as (f1 & Hf1 & Hn1).
  set (w1 := record c (createCall u "Favorite Short Term Tracks") None w0).
  destruct (Hecho (log w1) (spotify.PrivateUser.ID u) "Favorite Medium Term Tracks"
              automatedDescription false false) as (f2 & Hf2 & Hn2).
  set (w2 := record c (createCall u "Favorite Medium Term Tracks") None w1).
  destruct (Hecho (log w2) (spotify.PrivateUser.ID u) "Favorite Long Term Tracks"
              automatedDescription false false) as (f3 & Hf3 & Hn3).
  set (w3 := record c (createCall u "Favorite Long Term Tracks") None w2).
  set (p1 := spotify.FullPlaylist.SimplePlaylist f1) in *.
  set (p2 := spotify.FullPlaylist.SimplePlaylist f2) in *.
  set (p3 := spotify.FullPlaylist.SimplePlaylist f3) in *.
  assert (Hget : getAutomatedPlaylists c u (Some page) w0
                 = (Returns ([p1; p2; p3], nil_error), w3)).
  { unfold getAutomatedPlaylists. rewrite Hnone.
    cbn [List.length Nat.eqb]. unfold playlistNames.
    rewrite createPlaylists_cons, Hf1. unfold nil_error. fold w1.
    rewrite createPlaylists_cons, Hf2. unfold nil_error. fold w2.
    rewrite createPlaylists_cons, Hf3. unfold nil_error. fold w3.
    reflexivity. }
  assert (Hauto : main_automatedPlaylists c u "" w
                  = (Returns [p1; p2; p3], w3)).
  { unfold main_automatedPlaylists.
    rewrite (bind_Returns _ _ _ _ _ (getCurrentPlaylists_run c page w Hpl)).
    cbn [fst snd]. unfold nil_error at 1. cbv iota. fold w0.
    rewrite (bind_Returns _ _ _ _ _ Hget). reflexivity. }
  exists w3, (main_configs u [p1; p2; p3]), p1, p2, p3.
  split.
  { unfold main, fillOnly.
    cbn [playlistList playlistPurgeFavTracks playlistFill].
    rewrite !bind_ret. rewrite (bind_Returns _ _ _ _ _ Hauto). reflexivity. }
  split.
  { subst w3 w2 w1 w0. rewrite !record_log, <- !app_assoc. reflexivity. }
  split.
  { rewrite main_configs_short. cbn [lastNamed]. rewrite Hn1, Hn2, Hn3.
    reflexivity. }
  split.
  { rewrite main_configs_med. cbn [lastNamed]. rewrite Hn1, Hn2, Hn3.
    reflexivity. }
  split.
  { rewrite main_configs_long. cbn [lastNamed]. rewrite Hn1, Hn2, Hn3.
    reflexivity. }
  split; [exact Hn1|]. split; [exact Hn2 | exact Hn3].
Qed.

End FreshAccount.

(** An account without playlists, on the sample service (which names a
    created playlist as asked). *)
Lemma main_fill_mode_on_fresh_account_witness :
  let c := Samples.healthy [] [] [] in
  exists w' cs,
    main fillOnly c Samples.me 0 Samples.world0 = (Returns (Fork cs), w')
    /\ map id [shortTermConfig cs; medTermConfig cs; longTermConfig cs]
       = ["id of Favorite Short Term Tracks";
          "id of Favorite Medium Term Tracks";
          "id of Favorite Long Term Tracks"].
Proof.
  intros c.
  destruct (main_fill_mode_on_fresh_account c Samples.me
              {| spotify.SimplePlaylistPage.Playlists := [] |} 0
              Samples.world0 eq_refl eq_refl)
    as (w' & cs & p1 & p2 & p3 & Hrun & _).
  - intros h user n d a b. eexists. split; reflexivity.
  - exists w', cs. split; [exact Hrun|].
    pose proof Hrun as Hconcrete. vm_compute in Hconcrete.
    injection Hconcrete as <- _. reflexivity.
Defined.

(** ** A bound on the requests of the fill operation *)

Section RequestBound.
Variable c : spotify.Client.
Variable playlistID : spotify.ID.

Lemma NextBackOff_log b w :
  exists r w', backoff.NextBackOff b w = (Returns r, w') /\ log w' = log w.
Proof.
  unfold backoff.NextBackOff, backoff.GetElapsedTime, bind, time_Now, ret.
  destruct (negb (backoff.MaxElapsedTime b =? 0)%Z
            && (backoff.MaxElapsedTime b <? now w - backoff.startTime b)%Z)%bool.
  - do 2 eexists. split; reflexivity.
  - unfold rand_Float64. do 2 eexists. split; reflexivity.
Qed.

Lemma retryLoop_bound track fuel :
  forall b w,
    (List.length (log (snd (backoff.retryLoop fuel
                              (addTrackOp c playlistID track) b w)))
     <= List.length (log w) + fuel)%nat.
Proof.
  induction fuel as [|fuel IH]; intros b w.
  - cbn. lia.
  - cbn [backoff.retryLoop].
    pose proof (RetryFacts.addTrackOp_run c playlistID track w) as Hop.
    destruct (snd (spotify.addTracks c (log w) playlistID
                     [spotify.FullTrack.ID track])) as [err|].
    + destruct Hop as [e Hop]. rewrite (bind_Returns _ _ _ _ _ Hop).
      destruct (NextBackOff_log b
                  (record c (addCall playlistID track) (Some err) w))
        as (r & w2 & Hnext & Hlog2).
      rewrite (bind_Returns _ _ _ _ _ Hnext).
      destruct (fst r =? backoff.Stop)%Z.
      * unfold ret. cbn [snd]. rewrite Hlog2, record_log, length_app.
        cbn [List.length]. lia.
      * unfold bind at 1. unfold time_Sleep at 1.
        match goal with
        | |- context [backoff.retryLoop fuel _ (snd r) ?x] => set (w3 := x)
        end.
        specialize (IH (snd r) w3).
        assert (Hlog3 : log w3 = log w2) by reflexivity.
        rewrite Hlog3, Hlog2, record_log, length_app in IH.
        cbn [List.length] in IH. lia.
    + rewrite (bind_Returns _ _ _ _ _ Hop). unfold nil_error at 1.
      cbv iota. unfold ret. cbn [snd].
      rewrite record_log, length_app. cbn [List.length]. lia.
Qed.

Lemma fillTracks_bound tracks :
  forall w,
    (List.length (log (snd (fillTracks c playlistID tracks w)))
     <= List.length (log w) + backoff.maxAttempts * List.length tracks)%nat.
Proof.
  induction tracks as [|track tracks IH]; intros w.
  - cbn [fillTracks ret snd]. unfold ret. cbn [snd]. lia.
  - cbn [fillTracks].
    destruct (RetryFacts.NewExponentialBackOff_run w) as (b & Hnew & _).
    rewrite (bind_Returns _ _ _ _ _ Hnew).
    unfold backoff.Retry.
    destruct (RetryFacts.Reset_run b w) as (b' & Hreset & _).
    unfold bind at 1. unfold bind at 1. rewrite Hreset.
    pose proof (retryLoop_bound track backoff.maxAttempts b' w) as Hone.
    destruct (backoff.retryLoop backoff.maxAttempts
                (addTrackOp c playlistID track) b' w) as [o w1].
    cbn [snd] in Hone. cbn [List.length].
    destruct o as [[e|]| | |]; unfold ret; cbn [snd]; try lia.
    specialize (IH w1). lia.
Qed.

(** X6.  [fillPlaylist] never sends more than 3602 requests per track of the
    page: with pauses of at least a quarter of a second and a limit of 15
    minutes per track, the retries of one track cannot be more. *)
Theorem fillPlaylist_requests_are_bounded
  (page : spotify.FullTrackPage.t) (w : World) :
  exists err w',
    fillPlaylist c playlistID (Some page) w = (Returns err, w')
    /\ (List.length (log w')
        <= List.length (log w)
           + 3602 * List.length (spotify.FullTrackPage.Tracks page))%nat.
Proof.
  cbn [fillPlaylist].
  destruct (RetryFacts.fillTracks_spec c playlistID
              (spotify.FullTrackPage.Tracks page) w)
    as (err & w' & groups & Hrun & _).
  exists err, w'. split; [exact Hrun|].
  pose proof (fillTracks_bound (spotify.FullTrackPage.Tracks page) w) as Hb.
  rewrite Hrun in Hb. cbn [snd] in Hb.
  assert (Hmax : backoff.maxAttempts = 3602%nat) by (vm_compute; reflexivity).
  rewrite Hmax in Hb. exact Hb.
Qed.

End RequestBound.
